(** * The Jamf inventory dashboard: enrichment and filtering of device records

    A shallow embedding of [app.py]: the upload block, the data enrichment and
    warranty preparation, and the filters of the Inventory and Warranty pages,
    with the properties of the specification stated over them. *)

From Stdlib Require Import ZArith Ascii String.
From stdpp Require Import gmap strings list pretty sorting.

(** ** Cells, rows and data frames *)

(** A cell of a data frame. [NaN] is the missing value of text and number
    columns, [NaT] the missing value of a datetime column.  [Int] is an
    integer, [Flt] a float64 that holds a whole number (pandas turns a column
    of day counts into float64 as soon as one of its dates is missing);
    [Stamp] is a timestamp in nanoseconds since the epoch.  Floats with a
    fractional part do not occur in the columns the program computes with and
    are left out. *)
Inductive value :=
| NaN
| NaT
| Str (s : string)
| Int (z : Z)
| Flt (z : Z)
| Stamp (t : Z).

Global Instance value_eq_dec : EqDecision value.
Proof. solve_decision. Defined.

(** A row: its index label ([row.name]) and its fields by column label. *)
Record Row := mkRow {
  index_label : nat;
  fields : gmap string value;
}.

Global Instance Row_eq_dec : EqDecision Row.
Proof. solve_decision. Defined.

Record DataFrame := mkDataFrame {
  columns : list string;
  rows : list Row;
}.

(** [row[c]]; a column of the frame that a row has no entry for reads as
    missing. *)
Definition cell (r : Row) (c : string) : value := default NaN (fields r !! c).

(** [c in df.columns] *)
Definition has_column (c : string) (df : DataFrame) : bool :=
  bool_decide (c ∈ columns df).

Definition set_field (c : string) (v : value) (r : Row) : Row :=
  mkRow (index_label r) (<[c := v]> (fields r)).

(** [df[c] = f(row)] for an element-wise [f]: an existing column is replaced
    in place, a new one is appended to the schema. *)
Definition set_column (c : string) (f : Row → value) (df : DataFrame) : DataFrame :=
  mkDataFrame
    (if has_column c df then columns df else columns df ++ [c])
    ((λ r, set_field c (f r) r) <$> rows df).

(** [df[mask]] for a row-wise boolean mask: the rows that satisfy it, in
    order, with their index labels. *)
Definition select (mask : Row → bool) (df : DataFrame) : DataFrame :=
  mkDataFrame (columns df) (filter (λ r, mask r) (rows df)).

(** [pd.isna] / [pd.notna] on a cell. *)
Definition isna (v : value) : bool :=
  match v with NaN | NaT => true | _ => false end.

Definition notna (v : value) : bool := negb (isna v).

(** [series == s] for a string [s], element-wise: only a text cell equal to
    [s] compares equal. *)
Definition eq_str (v : value) (s : string) : bool :=
  match v with Str x => String.eqb x s | _ => false end.

(** ** Exceptions *)

Inductive exn :=
| AttributeError (msg : string)
| KeyError (key : string)
| TypeError (msg : string).

Inductive outcome (A : Type) :=
| Ok (a : A)
| Raise (e : exn).
Arguments Ok {A} a.
Arguments Raise {A} e.

Global Instance outcome_ret : MRet outcome := λ A a, Ok a.

Global Instance outcome_bind : MBind outcome := λ A B k m,
  match m with Ok a => k a | Raise e => Raise e end.

(** [df[c]]: the column as a function of the row; [KeyError] when the frame
    has no such column. *)
Definition getitem (c : string) (df : DataFrame) : outcome (Row → value) :=
  if has_column c df then Ok (λ r, cell r c) else Raise (KeyError c).

(** ** Status classification (the two lambdas) *)

(** A day count as the lambdas receive it: [None] is NaN.  Python's [<] and
    [<=] are false whenever an operand is NaN. *)
Definition num_lt (x : option Z) (n : Z) : bool :=
  match x with Some d => (d <? n)%Z | None => false end.

Definition num_le (x : option Z) (n : Z) : bool :=
  match x with Some d => (d <=? n)%Z | None => false end.

Definition num_notna (x : option Z) : bool :=
  match x with Some _ => true | None => false end.

(** [lambda x: "Checked in (<30 days)" if x < 30 else "Not checked in (30+ days)"] *)
Definition check_in_status (x : option Z) : string :=
  if num_lt x 30 then "Checked in (<30 days)" else "Not checked in (30+ days)".

(** [lambda x: "Expired" if pd.notna(x) and x < 0
       else ("Expiring Soon (<90 days)" if pd.notna(x) and x <= 90 else "Valid")] *)
Definition warranty_status (x : option Z) : string :=
  if num_notna x && num_lt x 0 then "Expired"
  else if num_notna x && num_le x 90 then "Expiring Soon (<90 days)"
  else "Valid".

(** ** Text: lower-casing and substring search *)

(** [str.lower] on the ASCII letters; other bytes are kept. *)
Definition lower_ascii (a : ascii) : ascii :=
  let n := N_of_ascii a in
  if ((65 <=? n) && (n <=? 90))%N then ascii_of_N (n + 32) else a.

Fixpoint lower (s : string) : string :=
  match s with
  | EmptyString => EmptyString
  | String a s' => String (lower_ascii a) (lower s')
  end.

(** [needle in hay] *)
Fixpoint is_infix (needle hay : string) : bool :=
  String.prefix needle hay ||
  match hay with
  | EmptyString => false
  | String _ hay' => is_infix needle hay'
  end.


(** ** Calendar arithmetic on timestamps *)

Section Calendar.
Local Open Scope Z_scope.

Definition ns_per_second : Z := 1000000000.
Definition ns_per_day : Z := 86400 * ns_per_second.

(** Days since 1970-01-01 of a date of the proleptic Gregorian calendar. *)
Definition days_from_civil (y m d : Z) : Z :=
  let y := if m <=? 2 then y - 1 else y in
  let era := y / 400 in
  let yoe := y - era * 400 in
  let doy := (153 * (if 2 <? m then m - 3 else m + 9) + 2) / 5 + d - 1 in
  let doe := yoe * 365 + yoe / 4 - yoe / 100 + doy in
  era * 146097 + doe - 719468.

Definition civil_from_days (z : Z) : Z * Z * Z :=
  let z := z + 719468 in
  let era := z / 146097 in
  let doe := z - era * 146097 in
  let yoe := (doe - doe / 1460 + doe / 36524 - doe / 146096) / 365 in
  let doy := doe - (365 * yoe + yoe / 4 - yoe / 100) in
  let mp := (5 * doy + 2) / 153 in
  let d := doy - (153 * mp + 2) / 5 + 1 in
  let m := if mp <? 10 then mp + 3 else mp - 9 in
  (if m <=? 2 then yoe + era * 400 + 1 else yoe + era * 400, m, d).

(** [Timedelta.days]: whole days, rounded towards minus infinity. *)
Definition timedelta_days (delta : Z) : Z := delta / ns_per_day.

End Calendar.

(** ** Printing of cells and rows

    [str(row)] is the text pandas prints for the row taken as a Series: one
    line per field, holding the column label and the printed cell, and a
    footer line with the row's index label and dtype.  The layout below is
    that of pandas' default display options, for frames of mixed columns
    (the rows of a frame holding a text column have dtype object). *)

Definition display_max_rows : nat := 60.
Definition display_min_rows : nat := 10.
Definition display_max_colwidth : nat := 50.

Fixpoint spaces (n : nat) : string :=
  match n with O => "" | S n' => String " " (spaces n') end.

(** [str.ljust], [str.rjust] and [str.center] *)
Definition ljust (w : nat) (s : string) : string := s +:+ spaces (w - String.length s).
Definition rjust (w : nat) (s : string) : string := spaces (w - String.length s) +:+ s.
Definition center (w : nat) (s : string) : string :=
  let pad := w - String.length s in
  let left := pad / 2 + (if Nat.odd pad && Nat.odd w then 1 else 0) in
  spaces left +:+ s +:+ spaces (pad - left).

(** A non-negative number in decimal, padded with zeros to [w] digits. *)
Definition zero_pad (w : nat) (z : Z) : string :=
  let d := pretty z in
  String.concat "" (replicate (w - String.length d) "0") +:+ d.

(** [str(Timestamp)]: date and time of day, with the microseconds or the
    nanoseconds when they are not zero. *)
Definition timestamp_str (t : Z) : string :=
  let '(y, m, d) := civil_from_days (t / ns_per_day)%Z in
  let rem := (t mod ns_per_day)%Z in
  let secs := (rem / ns_per_second)%Z in
  let frac := (rem mod ns_per_second)%Z in
  zero_pad 4 y +:+ "-" +:+ zero_pad 2 m +:+ "-" +:+ zero_pad 2 d +:+ " " +:+
  zero_pad 2 (secs / 3600) +:+ ":" +:+ zero_pad 2 (secs / 60 mod 60) +:+ ":" +:+
  zero_pad 2 (secs mod 60) +:+
  (if (frac =? 0)%Z then ""
   else if (frac mod 1000 =? 0)%Z then "." +:+ zero_pad 6 (frac / 1000)
   else "." +:+ zero_pad 9 frac).

(** The text of a cell, before it is laid out. *)
Definition value_str (v : value) : string :=
  match v with
  | NaN => "NaN"
  | NaT => "NaT"
  | Str s => s
  | Int z => pretty z
  | Flt z => pretty z +:+ ".0"
  | Stamp t => timestamp_str t
  end.

(** A cell as the formatter of an object Series emits it: a leading space,
    which a negative float's sign takes the place of. *)
Definition format_value (v : value) : string :=
  match v with
  | Flt z => if (z <? 0)%Z then value_str v else " " +:+ value_str v
  | _ => " " +:+ value_str v
  end.

(** Cells are cut to the display width and right-justified to a common
    width. *)
Definition make_fixed_width (strings : list string) : list string :=
  let max_len := Nat.min display_max_colwidth (max_list (String.length <$> strings)) in
  (λ x, rjust max_len
          (if (max_len <? String.length x)%nat
           then String.substring 0 (max_len - 3) x +:+ "..." else x)) <$> strings.

(** [adjoin(3, labels, cells)]: labels left-justified to their longest plus
    three, then the cell. *)
Definition adjoin (labels cells : list string) : list string :=
  let w := max_list (String.length <$> labels) + 3 in
  zip_with (λ l c, ljust w l +:+ c) labels cells.

(** The body lines of a printed row; beyond [display_max_rows] fields only
    the first and last five are printed, around a line of dots. *)
Definition series_lines (cols : list string) (r : Row) : list string :=
  if (display_max_rows <? length cols)%nat then
    let row_num := display_min_rows / 2 in
    let shown := take row_num cols ++ drop (length cols - row_num) cols in
    let cells := make_fixed_width ((λ c, format_value (cell r c)) <$> shown) in
    let width := String.length (default "" (cells !! (row_num - 1))) in
    let dots := center width (if (3 <? width)%nat then "..." else "..") in
    adjoin (take row_num shown ++ "" :: drop row_num shown)
           (take row_num cells ++ dots :: drop row_num cells)
  else
    adjoin cols (make_fixed_width ((λ c, format_value (cell r c)) <$> cols)).

Definition series_footer (cols : list string) (r : Row) : string :=
  "Name: " +:+ pretty (index_label r) +:+
  (if (display_max_rows <? length cols)%nat
   then ", Length: " +:+ pretty (length cols) else "") +:+
  ", dtype: object".

Definition newline : string := String (ascii_of_nat 10) "".

(** [str(row)] *)
Definition series_str (cols : list string) (r : Row) : string :=
  String.concat newline (series_lines cols r ++ [series_footer cols r]).

(** ** Upload: reading and concatenating the files *)

(** What [pd.read_csv] does with one uploaded file: a frame, or an exception
    (caught and reported by the upload loop). *)
Inductive read_result :=
| Parsed (d : DataFrame)
| Unreadable (msg : string).

(** The loop over [uploaded_files]: the frames read ([dfs]) and the errors
    reported with [st.error]. *)
Fixpoint read_files (uploaded_files : list read_result) : list DataFrame * list string :=
  match uploaded_files with
  | [] => ([], [])
  | Parsed d :: fs => let '(dfs, errs) := read_files fs in (d :: dfs, errs)
  | Unreadable e :: fs => let '(dfs, errs) := read_files fs in (dfs, e :: errs)
  end.

(** The labels of [ls] not yet in [acc], appended in order. *)
Definition union_labels (acc ls : list string) : list string :=
  foldl (λ a c, if bool_decide (c ∈ a) then a else a ++ [c]) acc ls.

(** [pd.concat(dfs, ignore_index=True)]: the union of the columns in order of
    first appearance, the rows of the frames one after the other, each with
    missing cells for the columns its file lacks, relabelled from 0. *)
Definition concat (dfs : list DataFrame) : DataFrame :=
  let cols := foldl (λ acc d, union_labels acc (columns d)) [] dfs in
  mkDataFrame cols
    (imap (λ i r, mkRow i (list_to_map ((λ c, (c, cell r c)) <$> cols)))
          (dfs ≫= rows)).

(** [df] after the upload block: [None] stays when no file could be read. *)
Definition load (uploaded_files : list read_result) : option DataFrame :=
  match (read_files uploaded_files).1 with
  | [] => None
  | dfs => Some (concat dfs)
  end.

(** ** Data enrichment and warranty preparation *)

Definition department_codes : list string := ["PRO"; "SEM"; "STU"; "DCE"; "SOE"].

(** [.str.extract(r"^(PRO|SEM|STU|DCE|SOE)")] on one cell: the first
    alternative that the text starts with; no match, or a cell that is not
    text, gives a missing value. *)
Definition extract_department (v : value) : value :=
  match v with
  | Str s =>
      match List.find (λ code, String.prefix code s) department_codes with
      | Some code => Str code
      | None => NaN
      end
  | _ => NaN
  end.

(** [(now - series).dt.days] and [(series - now).dt.days] on one cell. *)
Definition days_since (now : Z) (v : value) : option Z :=
  match v with Stamp t => Some (timedelta_days (now - t)) | _ => None end.

Definition days_until (now : Z) (v : value) : option Z :=
  match v with Stamp t => Some (timedelta_days (t - now)) | _ => None end.

(** A day count as a cell: the column is int64 when every date is present,
    float64 with NaN otherwise. *)
Definition days_value (float : bool) (d : option Z) : value :=
  match d with
  | Some d => if float then Flt d else Int d
  | None => NaN
  end.

(** The number a cell of a numeric column holds, as [Series.apply] hands it
    to the lambda. *)
Definition as_number (v : value) : option Z :=
  match v with Int z | Flt z => Some z | _ => None end.

Definition column_hasna (c : string) (df : DataFrame) : bool :=
  existsb (λ r, isna (cell r c)) (rows df).

Definition is_str (v : value) : bool :=
  match v with Str _ => true | _ => false end.

Definition no_rows (df : DataFrame) : bool :=
  match rows df with [] => true | _ => false end.

(** [df.empty]: no rows, or no columns. *)
Definition df_empty (df : DataFrame) : bool :=
  no_rows df || bool_decide (columns df = []).

(** Whether a column is a text column.  A column read from CSV files has
    dtype object as soon as one of its cells is a text, and also when it has
    no cell at all; a column of numbers, and one whose cells are all missing,
    has a numeric dtype. *)
Definition text_column (c : string) (df : DataFrame) : bool :=
  no_rows df || existsb (λ r, is_str (cell r c)) (rows df).

(** [df[c].str]: the accessor exists on text columns only. *)
Definition str_accessor (c : string) (df : DataFrame) : outcome unit :=
  if text_column c df then Ok ()
  else Raise (AttributeError "Can only use .str accessor with string values!").

(** [df["Department"] = df["Computer Name"].str.extract(...)], past the
    accessor. *)
Definition extract_departments (df : DataFrame) : DataFrame :=
  set_column "Department" (λ r, extract_department (cell r "Computer Name")) df.

(** The frame has no [Computer Name] column, or one the accessor takes. *)
Definition names_readable (df : DataFrame) : bool :=
  negb (has_column "Computer Name" df) || text_column "Computer Name" df.

Section Enrichment.

(** [pd.to_datetime(..., errors="coerce")] on a text: the timestamp read, in
    nanoseconds since the epoch, or nothing when the text is not a date.
    Which texts pandas reads as dates is not the program's matter; the
    enrichment is stated for any such reader. *)
Variable parse_datetime : string → option Z.

Definition to_datetime (v : value) : value :=
  match v with
  | Str s => match parse_datetime s with Some t => Stamp t | None => NaT end
  | Stamp t => Stamp t
  | Int z | Flt z => Stamp z
  | NaN | NaT => NaT
  end.

(** [if "Computer Name" in df.columns: df["Department"] = ...] *)
Definition enrich_department (df : DataFrame) : outcome DataFrame :=
  if has_column "Computer Name" df then
    _ ← str_accessor "Computer Name" df;
    Ok (extract_departments df)
  else Ok df.

(** [if "Last Inventory Update" in df.columns: ...]; [now] is the reading of
    [datetime.datetime.now()]. *)
Definition enrich_check_in (now : Z) (df : DataFrame) : DataFrame :=
  if has_column "Last Inventory Update" df then
    let df := set_column "Last Inventory Update"
                (λ r, to_datetime (cell r "Last Inventory Update")) df in
    let float := column_hasna "Last Inventory Update" df in
    let df := set_column "Days Since Update"
                (λ r, days_value float (days_since now (cell r "Last Inventory Update"))) df in
    set_column "Check-In Status"
      (λ r, Str (check_in_status (as_number (cell r "Days Since Update")))) df
  else df.

(** [if "Warranty Expiration" in df.columns: ...]; [now] is the reading of
    [pd.Timestamp.now()]. *)
Definition enrich_warranty (now : Z) (df : DataFrame) : DataFrame :=
  if has_column "Warranty Expiration" df then
    let df := set_column "Warranty Expiration"
                (λ r, to_datetime (cell r "Warranty Expiration")) df in
    let float := column_hasna "Warranty Expiration" df in
    let df := set_column "Days Until Expiration"
                (λ r, days_value float (days_until now (cell r "Warranty Expiration"))) df in
    set_column "Warranty Status"
      (λ r, Str (warranty_status (as_number (cell r "Days Until Expiration")))) df
  else df.

(** The enrichment of a frame; the clock is read twice. *)
Definition enrich (now_check_in now_warranty : Z) (df : DataFrame) : outcome DataFrame :=
  df ← enrich_department df;
  Ok (enrich_warranty now_warranty (enrich_check_in now_check_in df)).

(** The enrichment as the script runs it on [df], which is [None] when no
    file was read: [df.columns] then raises. *)
Definition enrich_loaded (now_check_in now_warranty : Z) (df : option DataFrame)
  : outcome DataFrame :=
  match df with
  | Some d => enrich now_check_in now_warranty d
  | None => Raise (AttributeError "'NoneType' object has no attribute 'columns'")
  end.

(** The rows of the "Expired Devices" table (lines 213-219): nothing when no
    device is expired or no column can be shown ("No expired devices
    found."), else the expired devices with their expiration read again. *)
Definition expired_table (w_df : DataFrame) : outcome (option DataFrame) :=
  let expired :=
    if has_column "Warranty Status" w_df then
      select (λ r, eq_str (cell r "Warranty Status") "Expired") w_df
    else mkDataFrame [] [] in
  let display_cols :=
    filter (λ c, c ∈ columns expired)
      ["Computer Name"; "Username"; "Department"; "Warranty Expiration";
       "Days Until Expiration"] in
  if df_empty expired || bool_decide (display_cols = []) then Ok None
  else
    expiration ← getitem "Warranty Expiration" expired;
    Ok (Some (set_column "Warranty Expiration" (λ r, to_datetime (expiration r)) expired)).

End Enrichment.

(** The columns a stage assigns. *)
Definition department_targets : list string := ["Department"].
Definition check_in_targets : list string :=
  ["Last Inventory Update"; "Days Since Update"; "Check-In Status"].
Definition warranty_targets : list string :=
  ["Warranty Expiration"; "Days Until Expiration"; "Warranty Status"].

(** The columns the enrichment of [df] assigns: those of the stages whose
    source column the frame has. *)
Definition enrich_targets (df : DataFrame) : list string :=
  (if has_column "Computer Name" df then department_targets else []) ++
  (if has_column "Last Inventory Update" df then check_in_targets else []) ++
  (if has_column "Warranty Expiration" df then warranty_targets else []).

(** ** The option lists of the select boxes *)

(** The two kinds of sequence the option code handles: a NumPy array (the
    result of [.unique()]) and a plain Python list (the literal [[]]). *)
Inductive pyseq :=
| NdArray (l : list value)
| PyList (l : list value).

Definition seq_items (s : pyseq) : list value :=
  match s with NdArray l | PyList l => l end.

(** [.tolist()]: a method of arrays, not of lists. *)
Definition tolist (s : pyseq) : outcome (list value) :=
  match s with
  | NdArray l => Ok l
  | PyList _ => Raise (AttributeError "'list' object has no attribute 'tolist'")
  end.

(** [Series.unique()]: the values in order of first appearance. *)
Definition unique (l : list value) : list value :=
  foldl (λ acc v, if bool_decide (v ∈ acc) then acc else acc ++ [v]) [] l.

(** [df[c].dropna().unique()] *)
Definition present_values (c : string) (df : DataFrame) : pyseq :=
  NdArray (unique (filter (λ v, notna v) ((λ r, cell r c) <$> rows df))).

(** Python's [<] between two present cells; [None] where Python raises a
    [TypeError] (text against number). *)
Definition value_lt (a b : value) : option bool :=
  match a, b with
  | Str x, Str y => Some (bool_decide (String.compare x y = Lt))
  | (Int x | Flt x), (Int y | Flt y) => Some (x <? y)%Z
  | Stamp x, Stamp y => Some (x <? y)%Z
  | _, _ => None
  end.

Definition not_comparable : exn :=
  TypeError "'<' not supported between instances".

(** [sorted(l)], by stable insertion. *)
Fixpoint insert_sorted (v : value) (l : list value) : outcome (list value) :=
  match l with
  | [] => Ok [v]
  | x :: l' =>
      match value_lt v x with
      | None => Raise not_comparable
      | Some true => Ok (v :: x :: l')
      | Some false => l'' ← insert_sorted v l'; Ok (x :: l'')
      end
  end.

Definition sorted (l : list value) : outcome (list value) :=
  foldl (λ acc v, s ← acc; insert_sorted v s) (Ok []) l.

(** The options of the department box of the Inventory page (lines 75-78). *)
Definition dept_options (df : DataFrame) : outcome (list value) :=
  let departments :=
    if has_column "Department" df then present_values "Department" df else PyList [] in
  if (0 <? length (seq_items departments))%nat then
    l ← tolist departments; s ← sorted l; Ok (Str "All" :: s)
  else Ok [Str "All"].

(** The options of the managed-status box (lines 82-83). *)
Definition managed_options (df : DataFrame) : outcome (list value) :=
  let managed :=
    if has_column "Managed" df then present_values "Managed" df else PyList [] in
  l ← tolist managed; s ← sorted l; Ok (Str "All" :: s ++ [Str "Unmanaged"]).

(** The options of the operating-system box (lines 86-88). *)
Definition os_options (df : DataFrame) : outcome (list value) :=
  if has_column "Operating System" df then
    l ← tolist (present_values "Operating System" df); s ← sorted l; Ok (Str "All" :: s)
  else Ok [Str "All"].

(** The options of the department box of the Warranty page (lines 179-182). *)
Definition dept_options_w (df : DataFrame) : outcome (list value) :=
  dept_options' ← (if has_column "Department" df then
                     l ← tolist (present_values "Department" df); sorted l
                   else Ok []);
  Ok (if (0 <? length dept_options')%nat then Str "All" :: dept_options' else [Str "All"]).

(** ** The filters *)

(** What the user entered on a page: the search text and the choices of the
    select boxes. *)
Record FilterSpec := mkFilterSpec {
  search_term : string;
  selected_dept : string;
  selected_managed : string;
  selected_os : string;
}.

(** [lambda row: search_term.lower() in str(row).lower()] *)
Definition search_match (search_term : string) (cols : list string) (r : Row) : bool :=
  is_infix (lower search_term) (lower (series_str cols r)).

(** A non-empty string is true. *)
Definition truthy (s : string) : bool :=
  match s with EmptyString => false | String _ _ => true end.

Definition neq_str (a b : string) : bool := negb (String.eqb a b).

(** "Apply filters" of the Inventory page (lines 93-104). *)
Definition inventory_filter (f : FilterSpec) (df : DataFrame) : outcome DataFrame :=
  let results := df in
  results ←
    (if neq_str (selected_dept f) "All" then
       dept ← getitem "Department" results;
       Ok (select (λ r, eq_str (dept r) (selected_dept f)) results)
     else Ok results);
  let results :=
    if neq_str (selected_managed f) "All" && has_column "Managed" results then
      if String.eqb (selected_managed f) "Unmanaged" then
        select (λ r, isna (cell r "Managed") || eq_str (cell r "Managed") "Unmanaged") results
      else
        select (λ r, eq_str (cell r "Managed") (selected_managed f)) results
    else results in
  let results :=
    if truthy (search_term f) then
      select (search_match (search_term f) (columns results)) results
    else results in
  let results :=
    if neq_str (selected_os f) "All" && has_column "Operating System" results then
      select (λ r, eq_str (cell r "Operating System") (selected_os f)) results
    else results in
  Ok results.

(** "Apply filter" of the Warranty page (lines 187-190). *)
Definition warranty_filter (selected_dept_w : string) (df : DataFrame) : DataFrame :=
  if neq_str selected_dept_w "All" && has_column "Department" df then
    select (λ r, eq_str (cell r "Department") selected_dept_w) df
  else df.

(** ** The pages and the script *)

Inductive page := Inventory | Warranty.

(** What a run of the script hands to the presentation. *)
Inductive screen :=
| UploadPrompt
| InventoryScreen (results : DataFrame)
| WarrantyScreen (w_df : DataFrame) (expired : option DataFrame).

(** The Inventory page: the option lists are built, then the filters run on
    the user's choices. *)
Definition inventory_page (f : FilterSpec) (df : DataFrame) : outcome screen :=
  _ ← dept_options df;
  _ ← managed_options df;
  _ ← os_options df;
  results ← inventory_filter f df;
  Ok (InventoryScreen results).

Section Script.

Variable parse_datetime : string → option Z.

Definition warranty_page (selected_dept_w : string) (df : DataFrame) : outcome screen :=
  _ ← dept_options_w df;
  let w_df := warranty_filter selected_dept_w df in
  expired ← expired_table parse_datetime w_df;
  Ok (WarrantyScreen w_df expired).

(** One run of [app.py] on the uploaded files, the two clock readings and
    the state of the widgets. *)
Definition main (uploaded_files : list read_result) (now_check_in now_warranty : Z)
    (p : page) (f : FilterSpec) (selected_dept_w : string) : outcome screen :=
  match uploaded_files with
  | [] => Ok UploadPrompt
  | _ =>
      df ← enrich_loaded parse_datetime now_check_in now_warranty (load uploaded_files);
      match p with
      | Inventory => inventory_page f df
      | Warranty => warranty_page selected_dept_w df
      end
  end.

End Script.

(** ** A reader of ISO dates

    [YYYY-MM-DD], optionally followed by a space or [T] and [HH:MM:SS]: an
    instance of the date reader, for the examples. *)

Definition digit_value (a : ascii) : option Z :=
  let n := N_of_ascii a in
  if ((48 <=? n) && (n <=? 57))%N then Some (Z.of_N n - 48)%Z else None.

Fixpoint number_from (acc : Z) (s : string) : option Z :=
  match s with
  | EmptyString => Some acc
  | String a s' =>
      match digit_value a with
      | Some d => number_from (10 * acc + d)%Z s'
      | None => None
      end
  end.

Definition number_at (start len : nat) (s : string) : option Z :=
  number_from 0 (String.substring start len s).

Definition char_at (i : nat) (s : string) (a : string) : bool :=
  bool_decide (String.substring i 1 s = a).

Definition days_in_month (y m : Z) : Z :=
  (days_from_civil (if m =? 12 then y + 1 else y) (if m =? 12 then 1 else m + 1) 1
   - days_from_civil y m 1)%Z.

Definition iso_date (s : string) : option Z :=
  if char_at 4 s "-" && char_at 7 s "-" then
    y ← number_at 0 4 s; m ← number_at 5 2 s; d ← number_at 8 2 s;
    if ((1 <=? m) && (m <=? 12) && (1 <=? d) && (d <=? days_in_month y m))%Z
    then Some (days_from_civil y m d * ns_per_day)%Z else None
  else None.

Definition iso_time (s : string) : option Z :=
  if (char_at 10 s " " || char_at 10 s "T") && char_at 13 s ":" && char_at 16 s ":" then
    h ← number_at 11 2 s; mi ← number_at 14 2 s; sec ← number_at 17 2 s;
    if ((h <? 24) && (mi <? 60) && (sec <? 60))%Z
    then Some ((h * 3600 + mi * 60 + sec) * ns_per_second)%Z else None
  else None.

Definition iso_datetime (s : string) : option Z :=
  if (String.length s =? 10)%nat then iso_date s
  else if (String.length s =? 19)%nat then
    d ← iso_date s; t ← iso_time s; Some (d + t)%Z
  else None.

(** ** Example data *)

Definition row_of (i : nat) (l : list (string * value)) : Row :=
  mkRow i (list_to_map l).

(** The readings of the clock in the examples: 2026-11-04 09:00:00. *)
Definition now_ex : Z := default 0%Z (iso_datetime "2026-11-04 09:00:00").

(** An inventory export of four devices. *)
Definition inventory_ex : DataFrame :=
  mkDataFrame
    ["Computer Name"; "Serial Number"; "Managed"; "Last Inventory Update";
     "Warranty Expiration"]
    [row_of 0 [("Computer Name", Str "PRO-01"); ("Serial Number", Str "C02A");
               ("Managed", Str "Managed");
               ("Last Inventory Update", Str "2026-09-25");
               ("Warranty Expiration", Str "2026-11-14")];
     row_of 1 [("Computer Name", Str "STUDENT-02"); ("Serial Number", Str "C02B");
               ("Managed", NaN);
               ("Last Inventory Update", Str "unknown");
               ("Warranty Expiration", NaN)];
     row_of 2 [("Computer Name", Str "LAB-03"); ("Serial Number", Str "C02C");
               ("Managed", Str "Unmanaged");
               ("Last Inventory Update", Str "2026-10-30");
               ("Warranty Expiration", Str "2026-11-04 12:00:00")];
     row_of 3 [("Computer Name", Str "SOE-04"); ("Serial Number", Str "C02D");
               ("Managed", Str "Managed");
               ("Last Inventory Update", Str "2026-11-01");
               ("Warranty Expiration", Str "2026-10-30")]].

(** The frame of an outcome; the empty frame when it raised. *)
Definition frame_of (o : outcome DataFrame) : DataFrame :=
  match o with Ok df => df | Raise _ => mkDataFrame [] [] end.

Definition enriched_ex : DataFrame :=
  frame_of (enrich iso_datetime now_ex now_ex inventory_ex).

(** An export whose computer names are all missing. *)
Definition unnamed_ex : DataFrame :=
  mkDataFrame ["Computer Name"; "Serial Number"]
    [row_of 0 [("Computer Name", NaN); ("Serial Number", Str "C02A")];
     row_of 1 [("Computer Name", NaN); ("Serial Number", Str "C02B")]].

(** An export without computer names, hence without departments. *)
Definition serials_ex : DataFrame :=
  mkDataFrame ["Serial Number"; "Managed"]
    [row_of 0 [("Serial Number", Str "C02A"); ("Managed", Str "Managed")];
     row_of 1 [("Serial Number", Str "C02B"); ("Managed", NaN)]].

(** An export without a [Managed] column. *)
Definition names_ex : DataFrame :=
  mkDataFrame ["Computer Name"; "Serial Number"]
    [row_of 0 [("Computer Name", Str "PRO-01"); ("Serial Number", Str "C02A")];
     row_of 1 [("Computer Name", Str "LAB-03"); ("Serial Number", Str "C02C")]].

(** The field values of a row, by column, and the row at a position. *)
Definition field_values (c : string) (df : DataFrame) : list value :=
  (λ r, cell r c) <$> rows df.

Definition row_at (i : nat) (df : DataFrame) : Row :=
  default (mkRow 0 ∅) (rows df !! i).

(** The frame, or the error, of one read. *)
Definition parsed_frame (f : read_result) : option DataFrame :=
  match f with Parsed d => Some d | Unreadable _ => None end.

Definition read_error (f : read_result) : option string :=
  match f with Parsed _ => None | Unreadable e => Some e end.

(** ** What the pages show besides the filtered rows *)

(** The conjunction of the predicates of a [FilterSpec] that are active on a
    frame: a choice other than "All" on a column the frame has (the
    department choice whatever the schema), and a search text that is not
    empty. *)
Definition passes (f : FilterSpec) (df : DataFrame) (r : Row) : bool :=
  (String.eqb (selected_dept f) "All"
   || eq_str (cell r "Department") (selected_dept f))
  && (String.eqb (selected_managed f) "All"
      || negb (has_column "Managed" df)
      || (if String.eqb (selected_managed f) "Unmanaged"
          then isna (cell r "Managed") || eq_str (cell r "Managed") "Unmanaged"
          else eq_str (cell r "Managed") (selected_managed f)))
  && (negb (truthy (search_term f))
      || search_match (search_term f) (columns df) r)
  && (String.eqb (selected_os f) "All"
      || negb (has_column "Operating System" df)
      || eq_str (cell r "Operating System") (selected_os f)).

(** [int(df[c].value_counts().get(label, 0))], the count the page writes for
    a status; the counts are of an empty Series when the frame has no such
    column (lines 107, 117-118, 196, 206-208). *)
Definition shown_count (c label : string) (df : DataFrame) : nat :=
  if has_column c df
  then length (filter (λ r, eq_str (cell r c) label) (rows df))
  else 0.

(** [x >= n] on a day count; false on NaN. *)
Definition num_ge (x : option Z) (n : Z) : bool :=
  match x with Some d => (n <=? d)%Z | None => false end.

(** Whether every cell of a column is a number or NaN, so that the column
    compares with a number. *)
Definition is_number_or_nan (v : value) : bool :=
  match v with Int _ | Flt _ | NaN => true | _ => false end.

Definition numeric_column (c : string) (df : DataFrame) : bool :=
  forallb (λ r, is_number_or_nan (cell r c)) (rows df).

(** [stale_mask] (lines 134-140): a boolean Series over the index of
    [results], here the list of index labels with their flags.  Comparing a
    column that holds a text or a date with 30 raises. *)
Definition stale_mask (results : DataFrame) : outcome (list (nat * bool)) :=
  if has_column "Days Since Update" results then
    if numeric_column "Days Since Update" results then
      Ok ((λ r, (index_label r,
                 num_ge (as_number (cell r "Days Since Update")) 30)) <$> rows results)
    else Raise (TypeError "'>=' not supported between instances")
  else if has_column "Check-In Status" results then
    Ok ((λ r, (index_label r,
               eq_str (cell r "Check-In Status") "Not checked in (30+ days)"))
          <$> rows results)
  else Ok ((λ r, (index_label r, false)) <$> rows results).

(** [bool(stale_mask.loc[label])] inside the [try]: the flag of the one entry
    with that label; a missing label ([KeyError]) and a repeated one (the
    truth value of a Series is ambiguous) raise. *)
Definition mask_loc (mask : list (nat * bool)) (label : nat) : option bool :=
  match filter (λ p, p.1 = label) mask with
  | [p] => Some p.2
  | _ => None
  end.

Definition stale_style : string := "background-color: #ffd6d6; color: #900;".

(** [highlight_stale(row)] (lines 143-151) on a row of [width] cells. *)
Definition highlight_stale (mask : list (nat * bool)) (width : nat) (row : Row)
  : list string :=
  let is_stale := default false (mask_loc mask (index_label row)) in
  if is_stale then replicate width stale_style else replicate width "".

(** Column [c] of frame [df] holds, in every row, the value [g] gives for
    the row. *)
Definition column_is (c : string) (g : Row → value) (df : DataFrame) : Prop :=
  has_column c df = true ∧ ∀ r, r ∈ rows df → fields r !! c = Some (g r).

(** The order of two neighbours in a sorted list: the second is not less
    than the first. *)
Definition not_before (a b : value) : Prop := value_lt b a = Some false.

(** [s] lists, in ascending order and each once, the values present in
    column [c] of [df]. *)
Definition listing (c : string) (df : DataFrame) (s : list value) : Prop :=
  NoDup s ∧ Sorted not_before s ∧
  ∀ v, v ∈ s ↔ notna v = true ∧ ∃ r, r ∈ rows df ∧ cell r c = v.

(** ** More example data *)

(** The choice "Unmanaged" with the other boxes on "All". *)
Definition unmanaged_spec : FilterSpec := mkFilterSpec "" "All" "Unmanaged" "All".

(** The Inventory results of the example export under that choice. *)
Definition results_ex : DataFrame :=
  match main iso_datetime [Parsed inventory_ex] now_ex now_ex Inventory
          unmanaged_spec "All" with
  | Ok (InventoryScreen results) => results
  | _ => mkDataFrame [] []
  end.

(** The stale mask of the enriched example export. *)
Definition mask_ex : list (nat * bool) :=
  [(0, true); (1, false); (2, false); (3, false)].

(** * Properties *)

(** ** The text and calendar functions on examples *)

Example lower_ex : lower "PRO-01 MacBook" = "pro-01 macbook".
Proof. reflexivity. Qed.

Example is_infix_ex :
  is_infix "book" "pro-01 macbook" = true ∧ is_infix "bok" "pro-01 macbook" = false.
Proof. split; reflexivity. Qed.

Example civil_ex :
  days_from_civil 2024 1 15 = 19737%Z
  ∧ civil_from_days 19737 = (2024, 1, 15)%Z
  ∧ civil_from_days (-1) = (1969, 12, 31)%Z
  ∧ days_from_civil 2000 2 29 = 11016%Z.
Proof. repeat split; reflexivity. Qed.

Example iso_datetime_ex :
  iso_datetime "2024-01-15" = Some 1705276800000000000%Z
  ∧ iso_datetime "2024-01-15 10:30:00" = Some 1705314600000000000%Z
  ∧ iso_datetime "2024-02-30" = None
  ∧ iso_datetime "unknown" = None.
Proof. repeat split; by vm_compute. Qed.

Example timestamp_str_ex :
  timestamp_str 1705314600123456000 = "2024-01-15 10:30:00.123456"
  ∧ timestamp_str 1705276800000000000 = "2024-01-15 00:00:00".
Proof. split; by vm_compute. Qed.

Example sorted_ex :
  sorted [Str "b"; Str "a"; Str "c"] = Ok [Str "a"; Str "b"; Str "c"]
  ∧ sorted [Str "b"; Int 3] = Raise not_comparable.
Proof. split; by vm_compute. Qed.

(** ** Cells and columns *)

Lemma cell_set_field_eq c v r : cell (set_field c v r) c = v.
Proof. unfold cell, set_field; simpl. by rewrite lookup_insert_eq. Qed.

Lemma cell_set_field_ne c c' v r : c ≠ c' → cell (set_field c v r) c' = cell r c'.
Proof. intros Hne. unfold cell, set_field; simpl. by rewrite lookup_insert_ne. Qed.

Lemma fields_set_field_ne c c' v r :
  c ≠ c' → fields (set_field c v r) !! c' = fields r !! c'.
Proof. intros Hne. unfold set_field; simpl. by rewrite lookup_insert_ne. Qed.

Lemma lookup_set_column c f df i :
  rows (set_column c f df) !! i = (λ r, set_field c (f r) r) <$> rows df !! i.
Proof. unfold set_column; simpl. apply list_lookup_fmap. Qed.

Lemma length_rows_set_column c f df :
  length (rows (set_column c f df)) = length (rows df).
Proof. unfold set_column; simpl. apply length_fmap. Qed.

Lemma has_column_set_column c c' f df :
  has_column c df = true → has_column c (set_column c' f df) = true.
Proof.
  unfold set_column, has_column at 1 2. cbn [columns]. intros H%bool_decide_eq_true.
  apply bool_decide_eq_true. destruct (has_column c' df); [done|].
  apply elem_of_app; by left.
Qed.

Lemma as_number_days_value float d : as_number (days_value float d) = d.
Proof. destruct d as [d|]; [|done]. by destruct float. Qed.

Lemma has_column_set_column_ne c c' f df :
  c ≠ c' → has_column c (set_column c' f df) = has_column c df.
Proof.
  intros Hne. unfold set_column, has_column at 1 3. cbn [columns].
  destruct (has_column c' df); [done|].
  apply bool_decide_ext. rewrite elem_of_app, list_elem_of_singleton.
  split; [intros [?|?]; [done|congruence] | by left].
Qed.

(** A closed, decidable side condition, such as a label not being among
    the targets of a stage. *)
Ltac by_decide := apply (bool_decide_unpack _); vm_compute; exact I.

(** Reading a cell back after a chain of assignments. *)
Ltac simpl_cells :=
  repeat first [ rewrite cell_set_field_eq | rewrite cell_set_field_ne by done ].

(** ** Prefixes and the department pattern *)

Lemma prefix_spec (a b : string) :
  String.prefix a b = true ↔ ∃ rest, b = a +:+ rest.
Proof.
  revert b. induction a as [|x a IH]; intros b; destruct b as [|y b]; simpl.
  - split; [intros _; by exists ""|done].
  - split; [intros _; by eexists|done].
  - split; [done|by intros [? ?]].
  -
    destruct (Ascii.ascii_dec x y) as [->|Hne].
    + rewrite IH. split; intros [rest H]; exists rest; [by rewrite H|].
      by injection H.
    + split; [done|]. intros [rest H]. injection H as -> _. done.
Qed.



Lemma extract_department_cases v :
  (∃ code rest, code ∈ department_codes ∧ v = Str (code +:+ rest)
                ∧ extract_department v = Str code)
  ∨ ((∀ code rest, code ∈ department_codes → v ≠ Str (code +:+ rest))
     ∧ extract_department v = NaN).
Proof.
  destruct v as [| |s| | |]; try (right; split; [by intros|done]).
  unfold extract_department.
  destruct (List.find (λ code, String.prefix code s) department_codes) as [code|] eqn:Hf.
  - apply List.find_some in Hf as [Hin [rest ->]%prefix_spec].
    left. exists code, rest. by rewrite <-list_elem_of_In in Hin.
  - right. split; [|done]. intros code rest Hin [= ->].
    apply list_elem_of_In in Hin.
    pose proof (List.find_none _ _ Hf code Hin) as Hp. simpl in Hp.
    assert (String.prefix code (code +:+ rest) = true) as Ht by (apply prefix_spec; eauto).
    congruence.
Qed.

(** ** The rows of an enriched frame *)

Section EnrichmentFacts.

Variable parse_datetime : string → option Z.

Local Abbreviation to_datetime := (to_datetime parse_datetime).
Local Abbreviation enrich_check_in := (enrich_check_in parse_datetime).
Local Abbreviation enrich_warranty := (enrich_warranty parse_datetime).
Local Abbreviation enrich := (enrich parse_datetime).

(** The department stage returns exactly when the names are readable. *)
Lemma enrich_department_Ok df :
  names_readable df = true →
  enrich_department df
  = Ok (if has_column "Computer Name" df then extract_departments df else df).
Proof.
  unfold names_readable, enrich_department, str_accessor.
  destruct (has_column "Computer Name" df); simpl; [|done]. by intros ->.
Qed.

Lemma enrich_department_inv df df1 :
  enrich_department df = Ok df1 →
  names_readable df = true ∧
  df1 = (if has_column "Computer Name" df then extract_departments df else df).
Proof.
  unfold names_readable, enrich_department, str_accessor.
  destruct (has_column "Computer Name" df); simpl; [|by intros [= <-]].
  destruct (text_column "Computer Name" df); simpl; [by intros [= <-]|done].
Qed.


Lemma enrich_inv n1 n2 df df' :
  enrich n1 n2 df = Ok df' →
  ∃ df1, enrich_department df = Ok df1 ∧
         df' = enrich_warranty n2 (enrich_check_in n1 df1).
Proof.
  unfold enrich. destruct (enrich_department df) as [df1|e]; [|done].
  simpl. intros [= <-]. eauto.
Qed.

Lemma has_column_enrich_check_in c now df :
  has_column c df = true → has_column c (enrich_check_in now df) = true.
Proof.
  intros H. unfold enrich_check_in. case_match; [|done].
  by do 3 apply has_column_set_column.
Qed.

Lemma has_column_enrich_check_in_ne c now df :
  c ∉ check_in_targets → has_column c (enrich_check_in now df) = has_column c df.
Proof.
  intros Hne. unfold enrich_check_in. case_match; [|done].
  rewrite !has_column_set_column_ne; [done|intros ->; apply Hne; repeat constructor..].
Qed.

Lemma has_column_enrich_department_ne c df df1 :
  c ≠ "Department" → enrich_department df = Ok df1 →
  has_column c df1 = has_column c df.
Proof.
  intros Hne [_ ->]%enrich_department_inv. case_match; [|done].
  by apply has_column_set_column_ne.
Qed.

Lemma enrich_department_row df df1 i r :
  enrich_department df = Ok df1 →
  rows df !! i = Some r →
  ∃ r', rows df1 !! i = Some r' ∧
    index_label r' = index_label r ∧
    (∀ c, c ∉ department_targets → fields r' !! c = fields r !! c) ∧
    (has_column "Computer Name" df = true →
       cell r' "Department" = extract_department (cell r "Computer Name")) ∧
    (has_column "Computer Name" df = false → r' = r).
Proof.
  intros [_ ->]%enrich_department_inv Hr.
  destruct (has_column "Computer Name" df) eqn:Hc.
  - eexists. unfold extract_departments. rewrite lookup_set_column, Hr. simpl.
    split; [done|]. split; [done|]. split; [|split; [|done]].
    + intros c Hc'. apply fields_set_field_ne. intros <-. apply Hc'. repeat constructor.
    + intros _. by simpl_cells.
  - exists r. by repeat split.
Qed.

Lemma enrich_check_in_row now df i r :
  rows df !! i = Some r →
  ∃ r', rows (enrich_check_in now df) !! i = Some r' ∧
    index_label r' = index_label r ∧
    (∀ c, c ∉ check_in_targets → fields r' !! c = fields r !! c) ∧
    (has_column "Last Inventory Update" df = true →
       cell r' "Last Inventory Update" = to_datetime (cell r "Last Inventory Update") ∧
       (∃ float, cell r' "Days Since Update"
          = days_value float (days_since now (cell r' "Last Inventory Update"))) ∧
       cell r' "Check-In Status"
         = Str (check_in_status (days_since now (cell r' "Last Inventory Update")))) ∧
    (has_column "Last Inventory Update" df = false → r' = r).
Proof.
  intros Hr. unfold enrich_check_in.
  destruct (has_column "Last Inventory Update" df) eqn:Hc.
  - eexists. rewrite !lookup_set_column, Hr. simpl. split; [done|].
    split; [done|]. split; [|split; [|done]].
    + intros c Hc'. rewrite !fields_set_field_ne; [done|intros <-; apply Hc'; repeat constructor..].
    + intros _. simpl_cells. split; [done|]. split; [by eexists|].
      by rewrite as_number_days_value.
  - exists r. by repeat split.
Qed.

Lemma enrich_warranty_row now df i r :
  rows df !! i = Some r →
  ∃ r', rows (enrich_warranty now df) !! i = Some r' ∧
    index_label r' = index_label r ∧
    (∀ c, c ∉ warranty_targets → fields r' !! c = fields r !! c) ∧
    (has_column "Warranty Expiration" df = true →
       cell r' "Warranty Expiration" = to_datetime (cell r "Warranty Expiration") ∧
       (∃ float, cell r' "Days Until Expiration"
          = days_value float (days_until now (cell r' "Warranty Expiration"))) ∧
       cell r' "Warranty Status"
         = Str (warranty_status (days_until now (cell r' "Warranty Expiration")))) ∧
    (has_column "Warranty Expiration" df = false → r' = r).
Proof.
  intros Hr. unfold enrich_warranty.
  destruct (has_column "Warranty Expiration" df) eqn:Hc.
  - eexists. rewrite !lookup_set_column, Hr. simpl. split; [done|].
    split; [done|]. split; [|split; [|done]].
    + intros c Hc'. rewrite !fields_set_field_ne; [done|intros <-; apply Hc'; repeat constructor..].
    + intros _. simpl_cells. split; [done|]. split; [by eexists|].
      by rewrite as_number_days_value.
  - exists r. by repeat split.
Qed.

Lemma cell_fields r' r c : fields r' !! c = fields r !! c → cell r' c = cell r c.
Proof. unfold cell. by intros ->. Qed.

Lemma length_rows_enrich n1 n2 df df' :
  enrich n1 n2 df = Ok df' → length (rows df') = length (rows df).
Proof.
  intros (df1 & [_ ->]%enrich_department_inv & ->)%enrich_inv.
  unfold enrich_warranty, enrich_check_in, extract_departments.
  destruct (has_column "Computer Name" df);
    destruct (has_column "Last Inventory Update" _);
    destruct (has_column "Warranty Expiration" _);
    by rewrite ?length_rows_set_column.
Qed.

Lemma enrich_lookup_inv n1 n2 df df' i r' :
  enrich n1 n2 df = Ok df' → rows df' !! i = Some r' → ∃ r, rows df !! i = Some r.
Proof.
  intros He H%lookup_lt_Some. rewrite (length_rows_enrich _ _ _ _ He) in H.
  by apply lookup_lt_is_Some_2.
Qed.


Lemma to_datetime_missing v : isna v = true → to_datetime v = NaT.
Proof. by destruct v. Qed.


(** The check-in cells of row [i] of the enriched frame. *)
Lemma enrich_check_in_cells n1 n2 df df' i r :
  enrich n1 n2 df = Ok df' →
  has_column "Last Inventory Update" df = true →
  rows df !! i = Some r →
  ∃ r' float, rows df' !! i = Some r' ∧
    cell r' "Last Inventory Update" = to_datetime (cell r "Last Inventory Update") ∧
    cell r' "Days Since Update"
      = days_value float (days_since n1 (cell r' "Last Inventory Update")) ∧
    cell r' "Check-In Status"
      = Str (check_in_status (as_number (cell r' "Days Since Update"))).
Proof.
  intros (df1 & Hd & ->)%enrich_inv Hc Hr.
  destruct (enrich_department_row df df1 i r Hd Hr) as (r1 & H1 & _ & F1 & _).
  destruct (enrich_check_in_row n1 _ i r1 H1) as (r2 & H2 & _ & _ & C2 & _).
  destruct (enrich_warranty_row n2 _ i r2 H2) as (r3 & H3 & _ & F3 & _).
  destruct C2 as (Ht & [float Hf] & Hs).
  { by rewrite (has_column_enrich_department_ne "Last Inventory Update" _ _ ltac:(done) Hd). }
  rewrite (cell_fields r1 r) in Ht by (apply F1; by_decide).
  exists r3, float. split; [done|].
  rewrite !(cell_fields r3 r2) by (apply F3; by_decide).
  repeat split; try done. by rewrite Hs, Hf, as_number_days_value.
Qed.

(** The warranty cells of row [i] of the enriched frame. *)
Lemma enrich_warranty_cells n1 n2 df df' i r :
  enrich n1 n2 df = Ok df' →
  has_column "Warranty Expiration" df = true →
  rows df !! i = Some r →
  ∃ r' float, rows df' !! i = Some r' ∧
    cell r' "Warranty Expiration" = to_datetime (cell r "Warranty Expiration") ∧
    cell r' "Days Until Expiration"
      = days_value float (days_until n2 (cell r' "Warranty Expiration")) ∧
    cell r' "Warranty Status"
      = Str (warranty_status (as_number (cell r' "Days Until Expiration"))).
Proof.
  intros (df1 & Hd & ->)%enrich_inv Hc Hr.
  destruct (enrich_department_row df df1 i r Hd Hr) as (r1 & H1 & _ & F1 & _).
  destruct (enrich_check_in_row n1 _ i r1 H1) as (r2 & H2 & _ & F2 & _).
  destruct (enrich_warranty_row n2 _ i r2 H2) as (r3 & H3 & _ & _ & C3 & _).
  destruct C3 as (Ht & [float Hf] & Hs).
  { rewrite has_column_enrich_check_in_ne by by_decide.
    by rewrite (has_column_enrich_department_ne "Warranty Expiration" _ _ ltac:(done) Hd). }
  rewrite (cell_fields r2 r1) in Ht by (apply F2; by_decide).
  rewrite (cell_fields r1 r) in Ht by (apply F1; by_decide).
  exists r3, float. repeat split; try done.
  by rewrite Hs, Hf, as_number_days_value.
Qed.





(** The department of row [i] of the enriched frame. *)
Lemma enrich_department_cell n1 n2 df df' i r :
  enrich n1 n2 df = Ok df' →
  has_column "Computer Name" df = true →
  rows df !! i = Some r →
  ∃ r', rows df' !! i = Some r' ∧
        cell r' "Department" = extract_department (cell r "Computer Name").
Proof.
  intros (df1 & Hd & ->)%enrich_inv Hc Hr.
  destruct (enrich_department_row df df1 i r Hd Hr) as (r1 & H1 & _ & _ & C1 & _).
  destruct (enrich_check_in_row n1 _ i r1 H1) as (r2 & H2 & _ & F2 & _).
  destruct (enrich_warranty_row n2 _ i r2 H2) as (r3 & H3 & _ & F3 & _).
  exists r3. split; [done|].
  rewrite (cell_fields r3 r2) by (apply F3; by_decide).
  rewrite (cell_fields r2 r1) by (apply F2; by_decide).
  by apply C1.
Qed.



(** When every computer name is missing the column is numeric, and the
    enrichment raises on the accessor. *)
Lemma enrich_names_all_missing n1 n2 :
  enrich n1 n2 unnamed_ex
  = Raise (AttributeError "Can only use .str accessor with string values!").
Proof. reflexivity. Qed.

End EnrichmentFacts.

(** ** Substrings *)














(** ** What the printed row holds *)







Section PrintedRow.

Variables (cols : list string) (r : Row).
Hypothesis Hshort : length cols ≤ display_max_rows.






End PrintedRow.




(** ** The filters *)

Lemma has_column_select c mask df : has_column c (select mask df) = has_column c df.
Proof. reflexivity. Qed.



Lemma neq_str_spec a b : neq_str a b = true ↔ a ≠ b.
Proof.
  unfold neq_str. rewrite negb_true_iff, <-not_true_iff_false, String.eqb_eq. done.
Qed.

(** The department stage of the Inventory filter either keeps the schema or
    raises. *)
Lemma getitem_select c (p : (Row → value) → Row → bool) df res :
  (col ← getitem c df; Ok (select (p col) df)) = Ok res →
  res = select (p (λ r, cell r c)) df ∧ has_column c df = true.
Proof.
  unfold getitem. destruct (has_column c df); [|done]. simpl. by intros [= <-].
Qed.

(** C8: with every select box on "All" and an empty search text the
    Inventory filter returns the frame as it is, rows, order and columns; so
    does the Warranty filter on "All". *)
Theorem filter_all_is_identity df :
  inventory_filter (mkFilterSpec "" "All" "All" "All") df = Ok df
  ∧ warranty_filter "All" df = df.
Proof. split; reflexivity. Qed.


(** A predicate on a column the frame lacks is skipped by the guarded
    filters: the managed and operating-system filters of the Inventory page
    and the department filter of the Warranty page. *)
Lemma managed_predicate_skipped s d m o df :
  has_column "Managed" df = false →
  inventory_filter (mkFilterSpec s d m o) df
  = inventory_filter (mkFilterSpec s d "All" o) df.
Proof.
  intros Hm. unfold inventory_filter.
  cbn [selected_dept selected_managed search_term selected_os].
  destruct (neq_str d "All").
  - unfold getitem. destruct (has_column "Department" df); [|done].
    unfold mbind, outcome_bind. by rewrite has_column_select, Hm, !andb_false_r.
  - unfold mbind, outcome_bind. by rewrite Hm, !andb_false_r.
Qed.

Lemma os_predicate_skipped s d m o df :
  has_column "Operating System" df = false →
  inventory_filter (mkFilterSpec s d m o) df
  = inventory_filter (mkFilterSpec s d m "All") df.
Proof.
  intros Ho. unfold inventory_filter.
  cbn [selected_dept selected_managed search_term selected_os].
  assert (∀ b (A B : DataFrame), has_column "Operating System" A = false →
            (if b && has_column "Operating System" A then B else A) = A) as Hskip.
  { intros b A B ->. by rewrite andb_false_r. }
  destruct (neq_str d "All").
  - unfold getitem. destruct (has_column "Department" df); [|done].
    unfold mbind, outcome_bind. f_equal.
    rewrite Hskip; [done|].
    by repeat (case_match; rewrite ?has_column_select).
  - unfold mbind, outcome_bind. f_equal. rewrite Hskip; [done|].
    by repeat (case_match; rewrite ?has_column_select).
Qed.

Lemma warranty_department_skipped d df :
  has_column "Department" df = false → warranty_filter d df = df.
Proof. intros Hd. unfold warranty_filter. by rewrite Hd, andb_false_r. Qed.

(** The department filter of the Inventory page has no such guard: on a
    frame without a [Department] column every choice but "All" raises. *)
Lemma department_predicate_raises s d m o df :
  has_column "Department" df = false → d ≠ "All" →
  inventory_filter (mkFilterSpec s d m o) df = Raise (KeyError "Department").
Proof.
  intros Hd Hne%neq_str_spec. unfold inventory_filter, getitem.
  cbn [selected_dept]. by rewrite Hne, Hd.
Qed.

(** Without a [Department] column the department box offers "All" only. *)
Lemma dept_options_without_column df :
  has_column "Department" df = false → dept_options df = Ok [Str "All"].
Proof. intros Hd. unfold dept_options. by rewrite Hd. Qed.

(** Without a [Managed] column the Inventory page raises while it builds the
    option lists ([[].tolist()], line 83). *)
Lemma inventory_page_without_managed f df :
  has_column "Managed" df = false → ∃ e, inventory_page f df = Raise e.
Proof.
  intros Hm. unfold inventory_page, managed_options. rewrite Hm.
  destruct (dept_options df); simpl; eauto.
Qed.

(** C5: a predicate on an absent column is not always skipped.  An export
    without computer names is enriched to itself and has no [Department]
    column: on it the Inventory filter with department "PRO" raises a
    [KeyError] instead of returning what the other predicates select (here,
    all "All", the whole frame).  And on an export without a [Managed] column
    the Inventory page raises an [AttributeError] before any filter runs,
    with every box on "All". *)
Theorem absent_column_raises :
  (enrich iso_datetime now_ex now_ex serials_ex = Ok serials_ex
   ∧ has_column "Department" serials_ex = false
   ∧ inventory_filter (mkFilterSpec "" "PRO" "All" "All") serials_ex
     = Raise (KeyError "Department")
   ∧ inventory_filter (mkFilterSpec "" "All" "All" "All") serials_ex = Ok serials_ex)
  ∧ (has_column "Managed" names_ex = false
     ∧ main iso_datetime [Parsed names_ex] now_ex now_ex Inventory
         (mkFilterSpec "" "All" "All" "All") "All"
       = Raise (AttributeError "'list' object has no attribute 'tolist'")).
Proof. repeat split; by vm_compute. Qed.

(** ** The script *)

Lemma read_files_unreadable uploaded_files :
  Forall (λ f, ∃ msg, f = Unreadable msg) uploaded_files →
  (read_files uploaded_files).1 = [].
Proof.
  induction 1 as [|f fs [msg ->] _ IH]; [done|].
  simpl. destruct (read_files fs) as [dfs errs]. by simpl in *.
Qed.

Lemma main_nothing_uploaded parse n1 n2 p f d :
  main parse [] n1 n2 p f d = Ok UploadPrompt.
Proof. reflexivity. Qed.

(** Whenever files were uploaded and none could be read, the script raises
    on [df.columns]. *)
Lemma main_all_unreadable parse uploaded_files n1 n2 p f d :
  uploaded_files ≠ [] →
  Forall (λ f, ∃ msg, f = Unreadable msg) uploaded_files →
  main parse uploaded_files n1 n2 p f d
  = Raise (AttributeError "'NoneType' object has no attribute 'columns'").
Proof.
  intros Hne Hall. unfold main, load. rewrite (read_files_unreadable _ Hall).
  by destruct uploaded_files.
Qed.

(** C1: on a batch of one file that cannot be read the script does not reach
    an empty record set: [df] stays [None] and the enrichment raises an
    [AttributeError], on either page and whatever the widgets hold. *)
Theorem main_single_unreadable_file parse msg n1 n2 p f d :
  main parse [Unreadable msg] n1 n2 p f d
  = Raise (AttributeError "'NoneType' object has no attribute 'columns'").
Proof. reflexivity. Qed.

(** A file with a header and no rows is read, and gives an empty record set
    on both pages. *)
Example main_header_only_file :
  let header_only := mkDataFrame ["Computer Name"; "Managed"] [] in
  (∃ results, main iso_datetime [Parsed header_only] now_ex now_ex Inventory
                (mkFilterSpec "" "All" "All" "All") "All" = Ok (InventoryScreen results)
              ∧ rows results = [])
  ∧ (∃ w_df, main iso_datetime [Parsed header_only] now_ex now_ex Warranty
                (mkFilterSpec "" "All" "All" "All") "All" = Ok (WarrantyScreen w_df None)
              ∧ rows w_df = []).
Proof. split; eexists; by vm_compute. Qed.

(** ** The example export *)

Example enriched_ex_departments :
  field_values "Department" enriched_ex = [Str "PRO"; Str "STU"; NaN; Str "SOE"].
Proof. by vm_compute. Qed.

Example extract_department_no_separator :
  extract_department (Str "STUDENT-01") = Str "STU"
  ∧ extract_department (Str "PROBE") = Str "PRO"
  ∧ extract_department (Str "pro-01") = NaN
  ∧ extract_department (Str "X-PRO-01") = NaN.
Proof. repeat split. Qed.

Example enriched_ex_check_in :
  field_values "Days Since Update" enriched_ex = [Flt 40; NaN; Flt 5; Flt 3]
  ∧ field_values "Check-In Status" enriched_ex
    = [Str "Not checked in (30+ days)"; Str "Not checked in (30+ days)";
       Str "Checked in (<30 days)"; Str "Checked in (<30 days)"].
Proof. split; by vm_compute. Qed.

Example enriched_ex_filter_department :
  ∃ results, inventory_filter (mkFilterSpec "" "STU" "All" "All") enriched_ex = Ok results
             ∧ index_label <$> rows results = [1].
Proof. eexists. split; by vm_compute. Qed.

(** The second device as the search sees it. *)
Example series_str_ex :
  series_str (columns enriched_ex) (row_at 1 enriched_ex)
  = String.concat newline
      ["Computer Name                           STUDENT-02";
       "Serial Number                                 C02B";
       "Managed                                        NaN";
       "Last Inventory Update                          NaT";
       "Warranty Expiration                            NaT";
       "Department                                     STU";
       "Days Since Update                              NaN";
       "Check-In Status          Not checked in (30+ days)";
       "Days Until Expiration                          NaN";
       "Warranty Status                              Valid";
       "Name: 1, dtype: object"].
Proof. by vm_compute. Qed.

Example enriched_ex_warranty :
  field_values "Days Until Expiration" enriched_ex = [Flt 9; NaN; Flt 0; Flt (-6)]
  ∧ field_values "Warranty Status" enriched_ex
    = [Str "Expiring Soon (<90 days)"; Str "Valid";
       Str "Expiring Soon (<90 days)"; Str "Expired"].
Proof. split; by vm_compute. Qed.

(** ** The claims on the example export *)









Example unmanaged_ex :
  ∃ res, inventory_filter (mkFilterSpec "" "All" "Unmanaged" "All") enriched_ex = Ok res
         ∧ index_label <$> rows res = [1; 2].
Proof. eexists. split; by vm_compute. Qed.




(** * Further properties of the script *)

(** ** The upload block *)

Lemma read_files_omap uploaded_files :
  read_files uploaded_files
  = (omap parsed_frame uploaded_files, omap read_error uploaded_files).
Proof.
  induction uploaded_files as [|[d|e] fs IH]; [done|..]; simpl; by rewrite IH.
Qed.

(** X1: the upload loop keeps the frames of the files that could be read, in
    upload order, and reports one error for each of the others; [df] is
    [None] exactly when no file could be read. *)
Theorem upload_keeps_readable_files uploaded_files :
  (read_files uploaded_files).1 = omap parsed_frame uploaded_files
  ∧ (read_files uploaded_files).2 = omap read_error uploaded_files
  ∧ length (read_files uploaded_files).1 + length (read_files uploaded_files).2
    = length uploaded_files
  ∧ (load uploaded_files = None
     ↔ Forall (λ f, ∃ msg, f = Unreadable msg) uploaded_files)
  ∧ (∀ dfs, omap parsed_frame uploaded_files = dfs → dfs ≠ [] →
       load uploaded_files = Some (concat dfs)).
Proof.
  rewrite read_files_omap. simpl.
  split; [done|]. split; [done|]. split; [|split; [split|]].
  - induction uploaded_files as [|[d|e] fs IH]; [done|..]; cbn in *;
      rewrite ?length_cons; lia.
  - unfold load. rewrite read_files_omap. cbn [fst].
    induction uploaded_files as [|[d|e] fs IH]; cbn; [done|done|].
    intros H. constructor; [by eexists|]. by apply IH.
  - unfold load. rewrite read_files_omap. cbn [fst].
    induction 1 as [|f fs [msg ->] _ IH]; [done|]. by cbn.
  - intros dfs <- Hne. unfold load. rewrite read_files_omap. cbn [fst].
    by destruct (omap parsed_frame uploaded_files).
Qed.

(** ** Concatenation *)


Lemma union_labels_spec acc ls :
  NoDup acc →
  NoDup (union_labels acc ls)
  ∧ acc `prefix_of` union_labels acc ls
  ∧ (∀ c, c ∈ union_labels acc ls ↔ c ∈ acc ∨ c ∈ ls).
Proof.
  unfold union_labels. revert acc. induction ls as [|x ls IH]; intros acc Hnd; simpl.
  - split; [done|]. split; [done|]. intros c. rewrite elem_of_nil. tauto.
  - case_bool_decide as Hx.
    + destruct (IH acc Hnd) as (H1 & H2 & H3). split; [done|]. split; [done|].
      intros c. rewrite H3, elem_of_cons.
      split; [tauto|]. intros [?|[->|?]]; tauto.
    + destruct (IH (acc ++ [x])) as (H1 & H2 & H3).
      { apply NoDup_app. split; [done|]. split; [|apply NoDup_singleton].
        intros y Hy ->%list_elem_of_singleton. done. }
      split; [done|]. split.
      * etransitivity; [|done]. by apply prefix_app_r.
      * intros c. rewrite H3, elem_of_app, list_elem_of_singleton, elem_of_cons.
        tauto.
Qed.

Lemma concat_columns_spec acc dfs :
  NoDup acc →
  let cols := foldl (λ acc d, union_labels acc (columns d)) acc dfs in
  NoDup cols ∧ acc `prefix_of` cols
  ∧ (∀ c, c ∈ cols ↔ c ∈ acc ∨ ∃ d, d ∈ dfs ∧ c ∈ columns d).
Proof.
  revert acc. induction dfs as [|d dfs IH]; intros acc Hnd; simpl.
  - split; [done|]. split; [done|]. intros c. split; [by left|].
    intros [?|(d & Hd%elem_of_nil & _)]; done.
  - destruct (union_labels_spec acc (columns d) Hnd) as (U1 & U2 & U3).
    destruct (IH _ U1) as (H1 & H2 & H3). split; [done|]. split.
    + by etransitivity.
    + intros c. rewrite H3, U3. split.
      * intros [[?|?]|(d' & Hd' & Hc)]; [by left|right; exists d|right; exists d'];
          (split; [|done]); [by left|by right].
      * intros [?|(d' & [->|Hd']%elem_of_cons & Hc)]; [by left; left|by left; right|].
        right. by exists d'.
Qed.

(** X2: the columns of the concatenated frame are the columns of the files,
    each once, in the order in which they first appear: a label is a column
    of the result exactly when it is a column of one of the files, and the
    columns of the first file come first. *)
Theorem concat_columns d dfs :
  NoDup (columns (concat (d :: dfs)))
  ∧ (∀ c, c ∈ columns (concat (d :: dfs)) ↔ ∃ d', d' ∈ d :: dfs ∧ c ∈ columns d')
  ∧ (NoDup (columns d) → columns d `prefix_of` columns (concat (d :: dfs))).
Proof.
  unfold concat. cbn [columns].
  destruct (concat_columns_spec [] (d :: dfs) (NoDup_nil_2)) as (H1 & _ & H3).
  split; [done|]. split.
  - intros c. rewrite H3, elem_of_nil. tauto.
  - intros Hnd. cbn [foldl].
    destruct (union_labels_spec [] (columns d) (NoDup_nil_2)) as (U1 & _ & U3).
    assert (union_labels [] (columns d) = columns d) as Hu.
    { unfold union_labels.
      assert (∀ (l acc : list string), NoDup (acc ++ l) →
        foldl (λ a c, if bool_decide (c ∈ a) then a else a ++ [c]) acc l
        = acc ++ l) as H.
      { clear. induction l as [|x l IH]; intros acc Hn; simpl.
        - by rewrite app_nil_r.
        - pose proof Hn as (Ha & Hd & Hl)%NoDup_app.
          rewrite bool_decide_eq_false_2.
          + rewrite IH; [by rewrite <-app_assoc|]. by rewrite <-app_assoc.
          + intros Hx. apply (Hd x Hx). by left. }
      by apply (H (columns d) []). }
    destruct (concat_columns_spec (union_labels [] (columns d)) dfs U1) as (_ & H2 & _).
    etransitivity; [|exact H2]. by rewrite Hu.
Qed.



(** ** Enrichment: the derived fields *)

Section EnrichmentMore.

Variable parse_datetime : string → option Z.

Local Abbreviation to_datetime := (to_datetime parse_datetime).
Local Abbreviation enrich := (enrich parse_datetime).

Lemma elem_of_rows_enrich n1 n2 df df' r' :
  enrich n1 n2 df = Ok df' → r' ∈ rows df' →
  ∃ i r, rows df !! i = Some r ∧ rows df' !! i = Some r'.
Proof.
  intros He [i Hi]%list_elem_of_lookup_1.
  destruct (enrich_lookup_inv _ _ _ _ _ _ _ He Hi) as [r Hr]. eauto.
Qed.

Lemma enriched_department n1 n2 df df' r' :
  enrich n1 n2 df = Ok df' →
  has_column "Computer Name" df = true →
  r' ∈ rows df' →
  cell r' "Department" = NaN
  ∨ ∃ code, code ∈ department_codes ∧ cell r' "Department" = Str code.
Proof.
  intros He Hc Hin.
  destruct (elem_of_rows_enrich _ _ _ _ _ He Hin) as (i & r & Hr & Hr').
  destruct (enrich_department_cell _ n1 n2 df df' i r He Hc Hr) as (r3 & Hr3 & Hd).
  assert (r3 = r') as -> by congruence. rewrite Hd.
  destruct (extract_department_cases (cell r "Computer Name"))
    as [(code & rest & Hcode & _ & ->)|[_ ->]]; [right; eauto|by left].
Qed.

(** X4: after the enrichment of a frame with a [Computer Name] column, the
    department of every record is missing or one of the five codes. *)
Theorem department_in_codes n1 n2 df df' r' :
  enrich n1 n2 df = Ok df' →
  has_column "Computer Name" df = true →
  r' ∈ rows df' →
  cell r' "Department" = NaN
  ∨ ∃ code, code ∈ department_codes ∧ cell r' "Department" = Str code.
Proof. exact (enriched_department n1 n2 df df' r'). Qed.

Lemma div_lt_iff (a q : Z) : (a / ns_per_day < q ↔ a < q * ns_per_day)%Z.
Proof.
  assert (0 < ns_per_day)%Z by done. split.
  - intros Hlt. destruct (Z_lt_le_dec a (q * ns_per_day)) as [|Hge]; [done|].
    assert (q ≤ a / ns_per_day)%Z; [|lia].
    apply Z.div_le_lower_bound; lia.
  - intros Hlt. apply Z.div_lt_upper_bound; lia.
Qed.

(** X5: for a record whose last inventory update reads as the instant [t],
    the day count is the elapsed time [now - t] in whole days, rounded
    down, and the record is "Checked in (<30 days)" exactly when less than
    30 times 24 hours have elapsed (a date in the future included), "Not
    checked in (30+ days)" otherwise. *)
Theorem check_in_by_elapsed_time n1 n2 df df' i r t :
  enrich n1 n2 df = Ok df' →
  has_column "Last Inventory Update" df = true →
  rows df !! i = Some r →
  to_datetime (cell r "Last Inventory Update") = Stamp t →
  ∃ r', rows df' !! i = Some r' ∧
    as_number (cell r' "Days Since Update") = Some ((n1 - t) / ns_per_day)%Z ∧
    ((n1 - t < 30 * ns_per_day)%Z →
       cell r' "Check-In Status" = Str "Checked in (<30 days)") ∧
    ((30 * ns_per_day ≤ n1 - t)%Z →
       cell r' "Check-In Status" = Str "Not checked in (30+ days)").
Proof.
  intros He Hc Hr Ht.
  destruct (enrich_check_in_cells _ n1 n2 df df' i r He Hc Hr)
    as (r' & float & Hr' & Hl & Hd & Hs).
  exists r'. split; [done|]. rewrite Hs, Hd, Hl, Ht, as_number_days_value. simpl.
  split; [done|]. unfold check_in_status, timedelta_days. simpl.
  pose proof (div_lt_iff (n1 - t) 30) as Hiff.
  destruct (Z.ltb_spec ((n1 - t) / ns_per_day) 30); split; intros; try done; lia.
Qed.

(** X6: for a record whose warranty expiration reads as the instant [t], the
    day count is the remaining time [t - now] in whole days, rounded down;
    the record is "Expired" exactly when [t] is before [now], "Valid" when
    at least 91 times 24 hours remain, and "Expiring Soon (<90 days)" in
    between. *)
Theorem warranty_by_remaining_time n1 n2 df df' i r t :
  enrich n1 n2 df = Ok df' →
  has_column "Warranty Expiration" df = true →
  rows df !! i = Some r →
  to_datetime (cell r "Warranty Expiration") = Stamp t →
  ∃ r', rows df' !! i = Some r' ∧
    as_number (cell r' "Days Until Expiration") = Some ((t - n2) / ns_per_day)%Z ∧
    ((t < n2)%Z → cell r' "Warranty Status" = Str "Expired") ∧
    ((n2 ≤ t < n2 + 91 * ns_per_day)%Z →
       cell r' "Warranty Status" = Str "Expiring Soon (<90 days)") ∧
    ((n2 + 91 * ns_per_day ≤ t)%Z → cell r' "Warranty Status" = Str "Valid").
Proof.
  intros He Hc Hr Ht.
  destruct (enrich_warranty_cells _ n1 n2 df df' i r He Hc Hr)
    as (r' & float & Hr' & Hl & Hd & Hs).
  exists r'. split; [done|]. rewrite Hs, Hd, Hl, Ht, as_number_days_value. simpl.
  split; [done|]. unfold warranty_status, timedelta_days. simpl.
  pose proof (div_lt_iff (t - n2) 0) as H0.
  pose proof (div_lt_iff (t - n2) 91) as H91.
  destruct (Z.ltb_spec ((t - n2) / ns_per_day) 0);
    destruct (Z.leb_spec ((t - n2) / ns_per_day) 90);
    repeat split; intros; try done; lia.
Qed.

(** The schema: the source columns, then the labels assigned so far that
    the source did not have. *)
Lemma columns_set_column_step (cols0 l : list string) c f A :
  columns A = cols0 ++ filter (λ x, x ∉ cols0) l →
  c ∉ l →
  columns (set_column c f A) = cols0 ++ filter (λ x, x ∉ cols0) (l ++ [c]).
Proof.
  intros HA Hc. unfold set_column, has_column. cbn [columns].
  rewrite filter_app, HA. destruct (decide (c ∈ cols0)) as [Hin|Hout].
  - rewrite bool_decide_eq_true_2 by (apply elem_of_app; by left).
    rewrite (filter_cons_False _ c) by tauto. by rewrite filter_nil, app_nil_r.
  - rewrite bool_decide_eq_false_2.
    + rewrite (filter_cons_True _ c) by done. by rewrite filter_nil, app_assoc.
    + rewrite elem_of_app, list_elem_of_filter. tauto.
Qed.

Lemma columns_enrich_check_in (cols0 l : list string) now A :
  columns A = cols0 ++ filter (λ x, x ∉ cols0) l →
  (∀ c, c ∈ check_in_targets → c ∉ l) →
  columns (enrich_check_in parse_datetime now A)
  = cols0 ++ filter (λ x, x ∉ cols0)
               (l ++ if has_column "Last Inventory Update" A then check_in_targets else []).
Proof.
  intros HA Hl. unfold enrich_check_in.
  destruct (has_column "Last Inventory Update" A); [|by rewrite app_nil_r].
  unfold check_in_targets.
  replace (l ++ ["Last Inventory Update"; "Days Since Update"; "Check-In Status"])
    with (((l ++ ["Last Inventory Update"]) ++ ["Days Since Update"])
            ++ ["Check-In Status"]) by (by rewrite <-!app_assoc).
  repeat apply columns_set_column_step; try done.
  - apply Hl. by_decide.
  - rewrite elem_of_app, list_elem_of_singleton. intros [?|?]; [|done].
    eapply Hl; [|done]. by_decide.
  - rewrite !elem_of_app, !list_elem_of_singleton. intros [[?|?]|?]; [|done..].
    eapply Hl; [|done]. by_decide.
Qed.

Lemma columns_enrich_warranty (cols0 l : list string) now A :
  columns A = cols0 ++ filter (λ x, x ∉ cols0) l →
  (∀ c, c ∈ warranty_targets → c ∉ l) →
  columns (enrich_warranty parse_datetime now A)
  = cols0 ++ filter (λ x, x ∉ cols0)
               (l ++ if has_column "Warranty Expiration" A then warranty_targets else []).
Proof.
  intros HA Hl. unfold enrich_warranty.
  destruct (has_column "Warranty Expiration" A); [|by rewrite app_nil_r].
  unfold warranty_targets.
  replace (l ++ ["Warranty Expiration"; "Days Until Expiration"; "Warranty Status"])
    with (((l ++ ["Warranty Expiration"]) ++ ["Days Until Expiration"])
            ++ ["Warranty Status"]) by (by rewrite <-!app_assoc).
  repeat apply columns_set_column_step; try done.
  - apply Hl. by_decide.
  - rewrite elem_of_app, list_elem_of_singleton. intros [?|?]; [|done].
    eapply Hl; [|done]. by_decide.
  - rewrite !elem_of_app, !list_elem_of_singleton. intros [[?|?]|?]; [|done..].
    eapply Hl; [|done]. by_decide.
Qed.

Lemma enrich_columns_spec n1 n2 df df' :
  enrich n1 n2 df = Ok df' →
  columns df' = columns df ++ filter (λ c, c ∉ columns df) (enrich_targets df).
Proof.
  intros (df1 & Hd & ->)%enrich_inv.
  pose proof (has_column_enrich_department_ne "Last Inventory Update" _ _
                ltac:(done) Hd) as H1.
  pose proof (has_column_enrich_department_ne "Warranty Expiration" _ _
                ltac:(done) Hd) as H2.
  apply enrich_department_inv in Hd as [_ ->].
  unfold enrich_targets.
  set (l1 := if has_column "Computer Name" df then department_targets else []).
  assert (columns (if has_column "Computer Name" df then extract_departments df else df)
          = columns df ++ filter (λ x, x ∉ columns df) ([] ++ l1)) as Hs1.
  { unfold l1. destruct (has_column "Computer Name" df).
    - apply columns_set_column_step; [by cbn; rewrite app_nil_r|].
      apply not_elem_of_nil.
    - by cbn; rewrite app_nil_r. }
  pose proof (columns_enrich_check_in _ _ n1 _ Hs1) as Hs2.
  rewrite H1 in Hs2.
  pose proof (columns_enrich_warranty _ _ n2 _ (Hs2 ltac:(
    intros c Hc; unfold l1; destruct (has_column "Computer Name" df);
    intros Hin; revert Hc; [apply elem_of_app in Hin as [?%elem_of_nil|Hin]|
                            apply elem_of_app in Hin as [?%elem_of_nil|?%elem_of_nil]];
    try done; apply list_elem_of_singleton in Hin as ->; by_decide))) as Hs3.
  rewrite has_column_enrich_check_in_ne, H2 in Hs3 by by_decide.
  rewrite Hs3; [by rewrite <-app_assoc|].
  intros c Hc. rewrite !elem_of_app, elem_of_nil. unfold l1.
  intros [[?|Hin]|Hin]; [done|..].
  - destruct (has_column "Computer Name" df); [|by apply elem_of_nil in Hin].
    apply list_elem_of_singleton in Hin as ->. revert Hc. by_decide.
  - destruct (has_column "Last Inventory Update" df); [|by apply elem_of_nil in Hin].
    revert Hin Hc. unfold check_in_targets, warranty_targets.
    rewrite !elem_of_cons, !elem_of_nil. intros [->|[->|[->|[]]]] Hc;
      repeat (destruct Hc as [Hc|Hc]; [discriminate|]); done.
Qed.

(** X7: the enrichment keeps the columns of the source in place and appends,
    in the order in which it assigns them, the derived columns that the
    source did not already have: [Department] when there are computer names,
    [Days Since Update] and [Check-In Status] when there is a last inventory
    update, [Days Until Expiration] and [Warranty Status] when there is a
    warranty expiration. *)
Theorem enrich_columns n1 n2 df df' :
  enrich n1 n2 df = Ok df' →
  columns df' = columns df ++ filter (λ c, c ∉ columns df) (enrich_targets df).
Proof. exact (enrich_columns_spec n1 n2 df df'). Qed.

(** *** Enriching an enriched frame *)

Lemma set_column_fixed c g df : column_is c g df → set_column c g df = df.
Proof.
  intros [Hc Hr]. unfold set_column. rewrite Hc. destruct df as [cols rs].
  simpl in *. f_equal. rewrite <-(list_fmap_id rs) at 2.
  apply list_fmap_ext. intros i r Hin%list_elem_of_lookup_2.
  destruct r as [lbl fs]. unfold set_field. simpl. f_equal.
  apply insert_id. by apply (Hr (mkRow lbl fs)).
Qed.

Lemma column_is_set_column c g df :
  (∀ r, g (set_field c (g r) r) = g r) →
  column_is c g (set_column c g df).
Proof.
  intros Hg. split.
  - unfold set_column, has_column at 1. cbn [columns].
    destruct (has_column c df) eqn:Hc; [done|].
    apply bool_decide_eq_true, elem_of_app. right. by apply list_elem_of_singleton.
  - intros r' (r & -> & Hr)%list_elem_of_fmap. rewrite Hg.
    unfold set_field. simpl. apply lookup_insert_eq.
Qed.

Lemma column_is_preserved c g c' f df :
  c ≠ c' →
  (∀ r v, g (set_field c' v r) = g r) →
  column_is c g df → column_is c g (set_column c' f df).
Proof.
  intros Hne Hg [Hc Hr]. split; [by apply has_column_set_column|].
  intros r' (r & -> & Hin)%list_elem_of_fmap.
  rewrite Hg, fields_set_field_ne by done. by apply Hr.
Qed.

Lemma column_hasna_set_column_ne c c' f df :
  c ≠ c' → column_hasna c (set_column c' f df) = column_hasna c df.
Proof.
  intros Hne. unfold column_hasna, set_column. cbn [rows].
  induction (rows df) as [|r rs IH]; [done|].
  rewrite fmap_cons. simpl. by rewrite IH, cell_set_field_ne.
Qed.

Lemma text_column_set_column_ne c c' f df :
  c ≠ c' → text_column c (set_column c' f df) = text_column c df.
Proof.
  intros Hne. unfold text_column, no_rows, set_column. cbn [rows]. f_equal.
  - by destruct (rows df).
  - induction (rows df) as [|r rs IH]; [done|].
    rewrite fmap_cons. simpl. by rewrite IH, cell_set_field_ne.
Qed.

Lemma to_datetime_idemp v : to_datetime (to_datetime v) = to_datetime v.
Proof. destruct v; simpl; try done. by destruct (parse_datetime s). Qed.

(** Side conditions of the kind "the value does not read the column
    assigned". *)
Ltac column_frame :=
  first [ done | by (intros; simpl_cells) ].

Lemma enrich_check_in_fixed now df :
  has_column "Last Inventory Update" df = true →
  let df' := enrich_check_in parse_datetime now df in
  ∃ float,
    float = column_hasna "Last Inventory Update" df' ∧
    column_is "Last Inventory Update"
      (λ r, to_datetime (cell r "Last Inventory Update")) df' ∧
    column_is "Days Since Update"
      (λ r, days_value float (days_since now (cell r "Last Inventory Update"))) df' ∧
    column_is "Check-In Status"
      (λ r, Str (check_in_status (as_number (cell r "Days Since Update")))) df'.
Proof.
  intros Hc. unfold enrich_check_in. rewrite Hc. cbn zeta.
  set (df1 := set_column "Last Inventory Update" _ df).
  exists (column_hasna "Last Inventory Update" df1). split.
  - by rewrite !column_hasna_set_column_ne.
  - split; [|split].
    + do 2 (apply column_is_preserved; [column_frame..|]).
      apply column_is_set_column. intros r. simpl_cells. apply to_datetime_idemp.
    + apply column_is_preserved; [column_frame..|].
      apply column_is_set_column. intros r. by simpl_cells.
    + apply column_is_set_column. intros r. by simpl_cells.
Qed.

Lemma enrich_warranty_fixed now df :
  has_column "Warranty Expiration" df = true →
  let df' := enrich_warranty parse_datetime now df in
  ∃ float,
    float = column_hasna "Warranty Expiration" df' ∧
    column_is "Warranty Expiration"
      (λ r, to_datetime (cell r "Warranty Expiration")) df' ∧
    column_is "Days Until Expiration"
      (λ r, days_value float (days_until now (cell r "Warranty Expiration"))) df' ∧
    column_is "Warranty Status"
      (λ r, Str (warranty_status (as_number (cell r "Days Until Expiration")))) df'.
Proof.
  intros Hc. unfold enrich_warranty. rewrite Hc. cbn zeta.
  set (df1 := set_column "Warranty Expiration" _ df).
  exists (column_hasna "Warranty Expiration" df1). split.
  - by rewrite !column_hasna_set_column_ne.
  - split; [|split].
    + do 2 (apply column_is_preserved; [column_frame..|]).
      apply column_is_set_column. intros r. simpl_cells. apply to_datetime_idemp.
    + apply column_is_preserved; [column_frame..|].
      apply column_is_set_column. intros r. by simpl_cells.
    + apply column_is_set_column. intros r. by simpl_cells.
Qed.

(** A stage leaves a frame as it is when its columns are up to date. *)
Lemma enrich_check_in_id now df float :
  float = column_hasna "Last Inventory Update" df →
  column_is "Last Inventory Update"
    (λ r, to_datetime (cell r "Last Inventory Update")) df →
  column_is "Days Since Update"
    (λ r, days_value float (days_since now (cell r "Last Inventory Update"))) df →
  column_is "Check-In Status"
    (λ r, Str (check_in_status (as_number (cell r "Days Since Update")))) df →
  enrich_check_in parse_datetime now df = df.
Proof.
  intros -> H1 H2 H3. unfold enrich_check_in. rewrite (proj1 H1). cbn zeta.
  rewrite (set_column_fixed _ _ _ H1), (set_column_fixed _ _ _ H2).
  apply (set_column_fixed _ _ _ H3).
Qed.

Lemma enrich_warranty_id now df float :
  float = column_hasna "Warranty Expiration" df →
  column_is "Warranty Expiration"
    (λ r, to_datetime (cell r "Warranty Expiration")) df →
  column_is "Days Until Expiration"
    (λ r, days_value float (days_until now (cell r "Warranty Expiration"))) df →
  column_is "Warranty Status"
    (λ r, Str (warranty_status (as_number (cell r "Days Until Expiration")))) df →
  enrich_warranty parse_datetime now df = df.
Proof.
  intros -> H1 H2 H3. unfold enrich_warranty. rewrite (proj1 H1). cbn zeta.
  rewrite (set_column_fixed _ _ _ H1), (set_column_fixed _ _ _ H2).
  apply (set_column_fixed _ _ _ H3).
Qed.

Lemma column_is_enrich_check_in c g now df :
  c ∉ check_in_targets →
  (∀ c' r v, c' ∈ check_in_targets → g (set_field c' v r) = g r) →
  column_is c g df → column_is c g (enrich_check_in parse_datetime now df).
Proof.
  intros Hc Hg H. unfold enrich_check_in. case_match; [|done]. cbn zeta.
  repeat (apply column_is_preserved;
          [intros ->; apply Hc; by_decide|intros; apply Hg; by_decide|]).
  done.
Qed.

Lemma column_is_enrich_warranty c g now df :
  c ∉ warranty_targets →
  (∀ c' r v, c' ∈ warranty_targets → g (set_field c' v r) = g r) →
  column_is c g df → column_is c g (enrich_warranty parse_datetime now df).
Proof.
  intros Hc Hg H. unfold enrich_warranty. case_match; [|done]. cbn zeta.
  repeat (apply column_is_preserved;
          [intros ->; apply Hc; by_decide|intros; apply Hg; by_decide|]).
  done.
Qed.

Lemma has_column_enrich_warranty_ne c now df :
  c ∉ warranty_targets →
  has_column c (enrich_warranty parse_datetime now df) = has_column c df.
Proof.
  intros Hne. unfold enrich_warranty. case_match; [|done].
  rewrite !has_column_set_column_ne; [done|intros ->; apply Hne; by_decide..].
Qed.

Lemma column_hasna_enrich_warranty c now df :
  c ∉ warranty_targets →
  column_hasna c (enrich_warranty parse_datetime now df) = column_hasna c df.
Proof.
  intros Hne. unfold enrich_warranty. case_match; [|done].
  rewrite !column_hasna_set_column_ne; [done|intros ->; apply Hne; by_decide..].
Qed.

Lemma text_column_enrich_warranty c now df :
  c ∉ warranty_targets →
  text_column c (enrich_warranty parse_datetime now df) = text_column c df.
Proof.
  intros Hne. unfold enrich_warranty. case_match; [|done].
  rewrite !text_column_set_column_ne; [done|intros ->; apply Hne; by_decide..].
Qed.

Lemma text_column_enrich_check_in c now df :
  c ∉ check_in_targets →
  text_column c (enrich_check_in parse_datetime now df) = text_column c df.
Proof.
  intros Hne. unfold enrich_check_in. case_match; [|done].
  rewrite !text_column_set_column_ne; [done|intros ->; apply Hne; by_decide..].
Qed.

Lemma has_column_department_stage c df :
  c ≠ "Department" →
  has_column c (if has_column "Computer Name" df then extract_departments df else df)
  = has_column c df.
Proof.
  intros Hne. destruct (has_column "Computer Name" df); [|done].
  by apply has_column_set_column_ne.
Qed.

Lemma text_column_department_stage c df :
  c ≠ "Department" →
  text_column c (if has_column "Computer Name" df then extract_departments df else df)
  = text_column c df.
Proof.
  intros Hne. destruct (has_column "Computer Name" df); [|done].
  by apply text_column_set_column_ne.
Qed.

(** A value read from one column does not change when another column is
    assigned. *)
Ltac reads_other_column :=
  let Hin := fresh in
  intros ? ? ? Hin; rewrite cell_set_field_ne; [done|];
  intros ->; revert Hin; by_decide.

(** X8: the enrichment is idempotent: enriching an enriched frame again, with
    the same readings of the clock, returns it unchanged. *)
Theorem enrich_idempotent n1 n2 df df' :
  enrich n1 n2 df = Ok df' → enrich n1 n2 df' = Ok df'.
Proof.
  intros (df1 & Hd & ->)%enrich_inv.
  pose proof (has_column_enrich_department_ne "Last Inventory Update" _ _
                ltac:(done) Hd) as HL.
  pose proof (has_column_enrich_department_ne "Warranty Expiration" _ _
                ltac:(done) Hd) as HW.
  apply enrich_department_inv in Hd as [Hn ->].
  set (df1 := if has_column "Computer Name" df then extract_departments df else df) in *.
  set (df2 := enrich_check_in parse_datetime n1 df1).
  set (df3 := enrich_warranty parse_datetime n2 df2).
  (* the department stage *)
  assert (has_column "Computer Name" df3 = has_column "Computer Name" df) as HC.
  { unfold df3, df2. rewrite has_column_enrich_warranty_ne, has_column_enrich_check_in_ne
      by by_decide.
    by apply has_column_department_stage. }
  assert (text_column "Computer Name" df3 = text_column "Computer Name" df) as HT.
  { unfold df3, df2. rewrite text_column_enrich_warranty, text_column_enrich_check_in
      by by_decide.
    by apply text_column_department_stage. }
  assert ((if has_column "Computer Name" df3 then extract_departments df3 else df3) = df3)
    as HD.
  { rewrite HC. destruct (has_column "Computer Name" df) eqn:Hcn; [|done].
    apply set_column_fixed.
    apply column_is_enrich_warranty; [by_decide|reads_other_column|].
    apply column_is_enrich_check_in; [by_decide|reads_other_column|].
    apply column_is_set_column. intros r. by simpl_cells. }
  (* the check-in stage *)
  assert (enrich_check_in parse_datetime n1 df3 = df3) as HCI.
  { destruct (has_column "Last Inventory Update" df1) eqn:Hl.
    - destruct (enrich_check_in_fixed n1 df1 Hl) as (float & Hf & C1 & C2 & C3).
      fold df2 in Hf, C1, C2, C3.
      apply (enrich_check_in_id n1 df3 float).
      + unfold df3. by rewrite column_hasna_enrich_warranty by by_decide.
      + apply column_is_enrich_warranty; [by_decide|reads_other_column|done].
      + apply column_is_enrich_warranty; [by_decide|reads_other_column|done].
      + apply column_is_enrich_warranty; [by_decide|reads_other_column|done].
    - unfold enrich_check_in at 1.
      assert (has_column "Last Inventory Update" df3 = false) as ->; [|done].
      unfold df3. rewrite has_column_enrich_warranty_ne by by_decide.
      unfold df2, enrich_check_in. by rewrite Hl. }
  (* the warranty stage *)
  assert (enrich_warranty parse_datetime n2 df3 = df3) as HWA.
  { destruct (has_column "Warranty Expiration" df2) eqn:Hw.
    - destruct (enrich_warranty_fixed n2 df2 Hw) as (float & Hf & C1 & C2 & C3).
      by apply (enrich_warranty_id n2 df3 float).
    - unfold df3, enrich_warranty. rewrite Hw. cbv iota. by rewrite Hw. }
  unfold enrich.
  rewrite (enrich_department_Ok df3).
  - rewrite HD. simpl. by rewrite HCI, HWA.
  - unfold names_readable in *. by rewrite HC, HT.
Qed.

End EnrichmentMore.

(** ** The Inventory filter as one predicate *)

Lemma select_ext p q df : (∀ r, p r = q r) → select p df = select q df.
Proof.
  intros H. unfold select. f_equal. apply list_filter_iff. intros r. by rewrite H.
Qed.

Lemma select_select p q df : select q (select p df) = select (λ r, p r && q r) df.
Proof.
  unfold select. cbn [rows columns]. f_equal. rewrite list_filter_filter.
  apply list_filter_iff. intros r. rewrite andb_True. tauto.
Qed.

Lemma select_stage (b : bool) p df :
  (if b then select p df else df) = select (λ r, negb b || p r) df.
Proof.
  destruct b; simpl; [done|]. unfold select. destruct df as [cols rs]. simpl. f_equal.
  induction rs as [|r rs IH]; [done|]. rewrite filter_cons_True by done. by f_equal.
Qed.


Lemma inventory_filter_select f df :
  selected_dept f = "All" ∨ has_column "Department" df = true →
  inventory_filter f df = Ok (select (passes f df) df).
Proof.
  intros Hd. unfold inventory_filter.
  assert ((if neq_str (selected_dept f) "All"
           then dept ← getitem "Department" df;
                Ok (select (λ r, eq_str (dept r) (selected_dept f)) df)
           else Ok df)
          = Ok (select (λ r, String.eqb (selected_dept f) "All"
                             || eq_str (cell r "Department") (selected_dept f)) df)) as ->.
  { unfold neq_str, getitem. destruct (String.eqb (selected_dept f) "All") eqn:He; simpl.
    - by rewrite <-(select_stage false (λ _, true)).
    - destruct Hd as [Hd| ->]; [|done]. apply String.eqb_neq in He. done. }
  unfold mbind, outcome_bind. cbn zeta. f_equal.
  set (A := select _ df).
  change (has_column "Managed" A) with (has_column "Managed" df).
  change (columns A) with (columns df).
  unfold neq_str.
  destruct (String.eqb (selected_managed f) "All") eqn:Hm,
    (has_column "Managed" df) eqn:Hcm,
    (String.eqb (selected_managed f) "Unmanaged") eqn:Hu,
    (truthy (search_term f)) eqn:Hs;
    cbn [negb andb]; cbv iota; change (columns (select _ A)) with (columns df);
    rewrite ?has_column_select;
    change (has_column "Operating System" A) with (has_column "Operating System" df);
    destruct (String.eqb (selected_os f) "All") eqn:Ho,
      (has_column "Operating System" df) eqn:Hco;
    cbn [negb andb]; cbv iota;
    unfold A; rewrite ?select_select; apply select_ext; intros r;
    unfold passes; rewrite ?Hm, ?Hcm, ?Hu, ?Hs, ?Ho, ?Hco;
    cbn [negb andb orb];
    rewrite ?andb_true_r, ?orb_true_r, ?andb_true_l, ?orb_false_r;
    cbn [columns select]; by rewrite ?andb_assoc.
Qed.


Lemma inventory_filter_Ok_inv f df res :
  inventory_filter f df = Ok res →
  selected_dept f = "All" ∨ has_column "Department" df = true.
Proof.
  unfold inventory_filter, neq_str, getitem.
  destruct (String.eqb (selected_dept f) "All") eqn:He.
  - intros _. left. by apply String.eqb_eq.
  - simpl. destruct (has_column "Department" df); [by right|done].
Qed.

Lemma inventory_filter_Ok f df res :
  inventory_filter f df = Ok res → res = select (passes f df) df.
Proof.
  intros H. pose proof (inventory_filter_Ok_inv _ _ _ H) as Hd.
  rewrite (inventory_filter_select _ _ Hd) in H. by injection H.
Qed.


Lemma inventory_filter_rows f df res :
  inventory_filter f df = Ok res →
  columns res = columns df
  ∧ rows res `sublist_of` rows df
  ∧ (∀ r, r ∈ rows res ↔ r ∈ rows df ∧ passes f df r = true)
  ∧ (NoDup (index_label <$> rows df) → NoDup (index_label <$> rows res)).
Proof.
  intros ->%inventory_filter_Ok. split; [done|].
  assert (rows (select (passes f df) df) `sublist_of` rows df) as Hsub
    by apply sublist_filter.
  split; [done|]. split.
  - intros r. unfold select. cbn [rows]. rewrite list_elem_of_filter, Is_true_true. tauto.
  - intros Hnd. eapply sublist_NoDup; [done|]. by apply fmap_sublist.
Qed.


(** ** The counts and the highlighting of the Inventory page *)

Lemma length_filter_split {A} (p q : A → bool) (l : list A) :
  (∀ x, x ∈ l → xorb (p x) (q x) = true) →
  length (filter (λ x, p x) l) + length (filter (λ x, q x) l) = length l.
Proof.
  induction l as [|x l IH]; intros H; [done|].
  pose proof (H x ltac:(by left)) as Hx.
  rewrite !filter_cons. specialize (IH (λ y Hy, H y ltac:(by right))).
  destruct (p x), (q x); try done; repeat case_decide; simpl in *; try tauto; lia.
Qed.

Lemma mask_loc_unique (mask : list (nat * bool)) i l b :
  NoDup (mask.*1) → mask !! i = Some (l, b) → mask_loc mask l = Some b.
Proof.
  intros Hnd Hi. unfold mask_loc.
  assert (filter (λ p, p.1 = l) mask = [(l, b)]) as ->; [|done].
  revert i Hnd Hi. induction mask as [|[l' b'] m IH]; intros i Hnd Hi; [done|].
  rewrite fmap_cons in Hnd. apply NoDup_cons in Hnd as [Hnotin Hnd].
  rewrite filter_cons. simpl in *. destruct i as [|i]; simpl in Hi.
  - injection Hi as -> ->. rewrite decide_True by done. f_equal.
    clear -Hnotin. induction m as [|[l2 b2] m IH]; [done|].
    rewrite fmap_cons, not_elem_of_cons in Hnotin. destruct Hnotin as [Hne Hnotin].
    rewrite filter_cons_False; [by apply IH|]. simpl. intros Heq. by apply Hne.
  - rewrite decide_False; [by eapply IH|].
    intros ->. apply Hnotin. apply list_elem_of_fmap. exists (l, b). split; [done|].
    by eapply list_elem_of_lookup_2.
Qed.

(** X12: on a frame whose index labels are distinct, whenever the stale mask
    can be computed the highlighter gives every row of the results table the
    style of its own flag: red on every cell when the row is flagged, no
    style otherwise.  The flag is [Days Since Update >= 30] when the frame
    has that column, else [Check-In Status == "Not checked in (30+ days)"]
    when it has that one, else false. *)
Theorem highlight_stale_own_flag results mask width i r :
  stale_mask results = Ok mask →
  NoDup (index_label <$> rows results) →
  rows results !! i = Some r →
  let flag :=
    if has_column "Days Since Update" results
    then num_ge (as_number (cell r "Days Since Update")) 30
    else if has_column "Check-In Status" results
         then eq_str (cell r "Check-In Status") "Not checked in (30+ days)"
         else false in
  highlight_stale mask width r
  = replicate width (if flag then stale_style else "").
Proof.
  intros Hm Hnd Hr flag. unfold highlight_stale.
  assert (mask_loc mask (index_label r) = Some flag) as ->; [|by destruct flag].
  unfold stale_mask in Hm. subst flag.
  destruct (has_column "Days Since Update" results);
    [destruct (numeric_column _ _); [|done]|
     destruct (has_column "Check-In Status" results)];
    injection Hm as <-;
    (eapply (mask_loc_unique _ i);
     [by rewrite <-list_fmap_compose|by rewrite list_lookup_fmap, Hr]).
Qed.

Section EnrichedPages.

Variable parse_datetime : string → option Z.

Local Abbreviation enrich := (enrich parse_datetime).

Lemma has_column_enrich n1 n2 df df' c :
  enrich n1 n2 df = Ok df' →
  has_column c df' = true ↔ has_column c df = true ∨ c ∈ enrich_targets df.
Proof.
  intros He. unfold has_column. rewrite !bool_decide_eq_true.
  rewrite (enrich_columns_spec _ _ _ _ _ He), elem_of_app, list_elem_of_filter.
  destruct (decide (c ∈ columns df)); tauto.
Qed.

(** The check-in cells of any row of an enriched frame. *)
Lemma enriched_check_in_row n1 n2 df df' r' :
  enrich n1 n2 df = Ok df' →
  has_column "Last Inventory Update" df = true →
  r' ∈ rows df' →
  ∃ (d : option Z) float,
    cell r' "Days Since Update" = days_value float d ∧
    cell r' "Check-In Status" = Str (check_in_status d).
Proof.
  intros He Hc Hin.
  destruct (elem_of_rows_enrich _ _ _ _ _ _ He Hin) as (i & r & Hr & Hr').
  destruct (enrich_check_in_cells _ n1 n2 df df' i r He Hc Hr)
    as (r3 & float & Hr3 & _ & Hd & Hs).
  assert (r3 = r') as -> by congruence.
  eexists _, float. split; [done|]. by rewrite Hs, Hd, as_number_days_value.
Qed.

Lemma enriched_warranty_row n1 n2 df df' r' :
  enrich n1 n2 df = Ok df' →
  has_column "Warranty Expiration" df = true →
  r' ∈ rows df' →
  ∃ (d : option Z) float,
    cell r' "Days Until Expiration" = days_value float d ∧
    cell r' "Warranty Status" = Str (warranty_status d).
Proof.
  intros He Hc Hin.
  destruct (elem_of_rows_enrich _ _ _ _ _ _ He Hin) as (i & r & Hr & Hr').
  destruct (enrich_warranty_cells _ n1 n2 df df' i r He Hc Hr)
    as (r3 & float & Hr3 & _ & Hd & Hs).
  assert (r3 = r') as -> by congruence.
  eexists _, float. split; [done|]. by rewrite Hs, Hd, as_number_days_value.
Qed.

(** X13: on the Inventory page of a batch with a last inventory update, the
    two counts written under the chart, checked in and not checked in, add
    up to the number of filtered rows. *)
Theorem check_in_counts_add_up n1 n2 df df' f results :
  enrich n1 n2 df = Ok df' →
  has_column "Last Inventory Update" df = true →
  inventory_filter f df' = Ok results →
  shown_count "Check-In Status" "Checked in (<30 days)" results
  + shown_count "Check-In Status" "Not checked in (30+ days)" results
  = length (rows results).
Proof.
  intros He Hc Hf.
  destruct (inventory_filter_rows _ _ _ Hf) as (Hcols & _ & Hmem & _).
  unfold shown_count.
  assert (has_column "Check-In Status" results = true) as ->.
  { unfold has_column. rewrite Hcols. apply (has_column_enrich _ _ _ _ _ He).
    right. unfold enrich_targets. rewrite Hc. rewrite !elem_of_app. right. left.
    by_decide. }
  apply (length_filter_split
           (λ r, eq_str (cell r "Check-In Status") "Checked in (<30 days)")
           (λ r, eq_str (cell r "Check-In Status") "Not checked in (30+ days)")).
  intros r [Hin _]%Hmem.
  destruct (enriched_check_in_row _ _ _ _ _ He Hc Hin) as (d & _ & _ & ->).
  unfold check_in_status. by destruct (num_lt d 30).
Qed.

(** X14: on the Warranty page of a batch with a warranty expiration, the
    three counts of the summary, expired, expiring soon and valid, add up to
    the number of devices of the chosen department. *)
Theorem warranty_counts_add_up n1 n2 df df' selected_dept_w :
  enrich n1 n2 df = Ok df' →
  has_column "Warranty Expiration" df = true →
  let w_df := warranty_filter selected_dept_w df' in
  shown_count "Warranty Status" "Expired" w_df
  + shown_count "Warranty Status" "Expiring Soon (<90 days)" w_df
  + shown_count "Warranty Status" "Valid" w_df
  = length (rows w_df).
Proof.
  intros He Hc w_df.
  assert (columns w_df = columns df') as Hcols.
  { unfold w_df, warranty_filter. by case_match. }
  assert (∀ r, r ∈ rows w_df → r ∈ rows df') as Hmem.
  { unfold w_df, warranty_filter. case_match; [|done].
    intros r. unfold select. cbn [rows]. rewrite list_elem_of_filter. tauto. }
  unfold shown_count.
  assert (has_column "Warranty Status" w_df = true) as ->.
  { unfold has_column. rewrite Hcols. apply (has_column_enrich _ _ _ _ _ He).
    right. unfold enrich_targets. rewrite Hc. rewrite !elem_of_app. right. right.
    by_decide. }
  assert (∀ l : list Row, (∀ r, r ∈ l → r ∈ rows df') →
    length (filter (λ r, eq_str (cell r "Warranty Status") "Expired") l)
    + length (filter (λ r, eq_str (cell r "Warranty Status") "Expiring Soon (<90 days)") l)
    + length (filter (λ r, eq_str (cell r "Warranty Status") "Valid") l)
    = length l) as Hcount; [|by apply Hcount].
  induction l as [|r l IH]; intros Hl; [done|].
  specialize (IH (λ y Hy, Hl y ltac:(by right))).
  destruct (enriched_warranty_row _ _ _ _ _ He Hc (Hl r ltac:(by left)))
    as (d & _ & _ & Hs).
  rewrite !filter_cons, Hs. unfold warranty_status.
  destruct (num_notna d && num_lt d 0); [|destruct (num_notna d && num_le d 90)];
    repeat case_decide; simpl in *; try tauto; lia.
Qed.

(** X15: on the Inventory page of a batch with a last inventory update, the
    stale mask can always be computed, and a filtered row is flagged exactly
    when its day count is a number of at least 30.  For a row with a day
    count the flag agrees with the status "Not checked in (30+ days)"; a row
    without one (date missing or unreadable) has that status and yet is not
    flagged. *)
Theorem stale_flags_of_enriched n1 n2 df df' f results :
  enrich n1 n2 df = Ok df' →
  has_column "Last Inventory Update" df = true →
  inventory_filter f df' = Ok results →
  stale_mask results
  = Ok ((λ r, (index_label r, num_ge (as_number (cell r "Days Since Update")) 30))
          <$> rows results)
  ∧ ∀ r, r ∈ rows results →
      let flag := num_ge (as_number (cell r "Days Since Update")) 30 in
      (∀ d, as_number (cell r "Days Since Update") = Some d →
         (flag = true ↔ (30 ≤ d)%Z) ∧
         (flag = true ↔ cell r "Check-In Status" = Str "Not checked in (30+ days)")) ∧
      (as_number (cell r "Days Since Update") = None →
         flag = false ∧ cell r "Check-In Status" = Str "Not checked in (30+ days)").
Proof.
  intros He Hc Hf.
  destruct (inventory_filter_rows _ _ _ Hf) as (Hcols & _ & Hmem & _).
  assert (has_column "Days Since Update" results = true) as Hdsu.
  { unfold has_column. rewrite Hcols. apply (has_column_enrich _ _ _ _ _ He).
    right. unfold enrich_targets. rewrite Hc. rewrite !elem_of_app. right. left.
    by_decide. }
  split.
  - unfold stale_mask. rewrite Hdsu.
    assert (numeric_column "Days Since Update" results = true) as ->; [|done].
    unfold numeric_column. apply forallb_forall. intros r [Hin _]%list_elem_of_In%Hmem.
    destruct (enriched_check_in_row _ _ _ _ _ He Hc Hin) as (d & float & -> & _).
    destruct d; [by destruct float|done].
  - intros r [Hin _]%Hmem.
    destruct (enriched_check_in_row _ _ _ _ _ He Hc Hin) as (d & float & -> & ->).
    rewrite as_number_days_value. cbn zeta. split.
    + intros d' ->. unfold check_in_status. simpl.
      destruct (Z.leb_spec 30 d'), (Z.ltb_spec d' 30); try lia; split; split; try done; lia.
    + by intros ->.
Qed.

End EnrichedPages.

(** ** The script, end to end *)

Section Pipeline.

Variable parse_datetime : string → option Z.




End Pipeline.

(** ** The option lists *)

Lemma unique_spec (l : list value) :
  NoDup (unique l) ∧ ∀ v, v ∈ unique l ↔ v ∈ l.
Proof.
  unfold unique.
  assert (∀ acc, NoDup acc →
    NoDup (foldl (λ acc v, if bool_decide (v ∈ acc) then acc else acc ++ [v]) acc l)
    ∧ ∀ v, v ∈ foldl (λ acc v, if bool_decide (v ∈ acc) then acc else acc ++ [v]) acc l
           ↔ v ∈ acc ∨ v ∈ l) as H.
  { induction l as [|x l IH]; intros acc Hnd; simpl.
    - split; [done|]. intros v. rewrite elem_of_nil. tauto.
    - case_bool_decide as Hx.
      + destruct (IH acc Hnd) as [H1 H2]. split; [done|]. intros v.
        rewrite H2, elem_of_cons. split; [tauto|]. intros [?|[->|?]]; tauto.
      + destruct (IH (acc ++ [x])) as [H1 H2].
        { apply NoDup_app. split; [done|]. split; [|apply NoDup_singleton].
          intros y Hy ->%list_elem_of_singleton. done. }
        split; [done|]. intros v.
        rewrite H2, elem_of_app, list_elem_of_singleton, elem_of_cons. tauto. }
  destruct (H [] (NoDup_nil_2)) as [H1 H2]. split; [done|].
  intros v. rewrite H2, elem_of_nil. tauto.
Qed.

Lemma value_lt_asym a b : value_lt a b = Some true → value_lt b a = Some false.
Proof.
  destruct a, b; simpl; try done; intros [= H]; f_equal.
  - apply bool_decide_eq_true in H. apply bool_decide_eq_false.
    rewrite String.compare_antisym, H. done.
  - apply Z.ltb_lt in H. apply Z.ltb_ge. lia.
  - apply Z.ltb_lt in H. apply Z.ltb_ge. lia.
  - apply Z.ltb_lt in H. apply Z.ltb_ge. lia.
  - apply Z.ltb_lt in H. apply Z.ltb_ge. lia.
  - apply Z.ltb_lt in H. apply Z.ltb_ge. lia.
Qed.

Lemma insert_sorted_spec v l s :
  insert_sorted v l = Ok s →
  s ≡ₚ v :: l ∧
  (Sorted not_before l → Sorted not_before s) ∧
  (∀ a, HdRel not_before a l → not_before a v → HdRel not_before a s).
Proof.
  revert s. induction l as [|x l IH]; intros s; simpl.
  - intros [= <-]. split; [done|]. split; [by repeat constructor|].
    intros a _ Hav. by constructor.
  - destruct (value_lt v x) as [[|]|] eqn:Hlt; [| |done].
    + intros [= <-]. split; [done|]. split.
      * intros Hs. constructor; [done|]. constructor. by apply value_lt_asym.
      * intros a _ Hav. by constructor.
    + destruct (insert_sorted v l) as [s'|] eqn:Hins; [|done]. simpl.
      intros [= <-]. destruct (IH s' eq_refl) as (Hp & Hs & Hh). split.
      * rewrite Hp. apply Permutation_swap.
      * split.
        -- intros Hsx. apply Sorted_inv in Hsx as [Hsl Hhd].
           constructor; [by apply Hs|]. by apply Hh.
        -- intros a Ha _. apply HdRel_inv in Ha. by constructor.
Qed.

Lemma sorted_raise e (l : list value) :
  foldl (λ acc v, s ← acc; insert_sorted v s) (Raise e) l = Raise e.
Proof. induction l as [|x l IH]; [done|]. simpl. apply IH. Qed.

Lemma sorted_spec l s :
  sorted l = Ok s → s ≡ₚ l ∧ Sorted not_before s.
Proof.
  unfold sorted.
  assert (∀ acc s, Sorted not_before acc →
    foldl (λ acc v, s ← acc; insert_sorted v s) (Ok acc) l = Ok s →
    s ≡ₚ l ++ acc ∧ Sorted not_before s) as H.
  { induction l as [|x l IH]; intros acc s' Hacc; simpl.
    - by intros [= <-].
    - destruct (insert_sorted x acc) as [acc'|e] eqn:Hins.
      + destruct (insert_sorted_spec _ _ _ Hins) as (Hp & Hs & _).
        intros [Hp' Hs']%IH; [|by apply Hs]. split; [|done].
        rewrite Hp', Hp. by rewrite Permutation_middle.
      + simpl. by rewrite sorted_raise. }
  intros Hs. destruct (H [] s (Sorted_nil _) Hs) as [Hp Hs']. split; [|done].
  by rewrite app_nil_r in Hp.
Qed.

Lemma insert_sorted_texts v l :
  is_str v = true → Forall (λ x, is_str x = true) l → ∃ s, insert_sorted v l = Ok s.
Proof.
  intros Hv Hl. induction Hl as [|x l Hx Hl IH]; simpl; [eauto|].
  destruct v as [| |sv| | |], x as [| |sx| | |]; try done. simpl.
  case_bool_decide; [eauto|]. destruct IH as [s' ->]. simpl. eauto.
Qed.

Lemma sorted_texts l :
  Forall (λ x, is_str x = true) l → ∃ s, sorted l = Ok s.
Proof.
  unfold sorted.
  assert (∀ acc, Forall (λ x, is_str x = true) acc →
            Forall (λ x, is_str x = true) l →
    ∃ s, foldl (λ acc v, s ← acc; insert_sorted v s) (Ok acc) l = Ok s) as H.
  { induction l as [|x l IH]; intros acc Hacc Hl; simpl; [eauto|].
    apply Forall_cons in Hl as [Hx Hl].
    destruct (insert_sorted_texts x acc Hx Hacc) as [acc' Hins]. rewrite Hins.
    apply IH; [|done].
    destruct (insert_sorted_spec _ _ _ Hins) as (Hp & _). rewrite Hp. by constructor. }
  intros Hl. by apply (H []).
Qed.

Lemma present_values_listing c df s :
  sorted (seq_items (present_values c df)) = Ok s → listing c df s.
Proof.
  intros (Hp & Hs)%sorted_spec. unfold present_values in Hp. cbn [seq_items] in Hp.
  destruct (unique_spec (filter (λ v, notna v) ((λ r, cell r c) <$> rows df)))
    as [Hnd Hmem].
  split; [by rewrite Hp|]. split; [done|]. intros v.
  rewrite Hp, Hmem, list_elem_of_filter, list_elem_of_fmap, Is_true_true.
  split; intros [Hn (r & H1 & H2)]; (split; [done|]); exists r; by split.
Qed.

Lemma insert_sorted_raise v l e : insert_sorted v l = Raise e → e = not_comparable.
Proof.
  induction l as [|x l IH]; simpl; [done|].
  destruct (value_lt v x) as [[|]|]; [done| |by intros [= <-]].
  destruct (insert_sorted v l); [done|]. simpl. intros [= <-]. by apply IH.
Qed.

(** The only exception of [sorted] is the [TypeError] of a comparison. *)
Lemma sorted_raise_inv l e : sorted l = Raise e → e = not_comparable.
Proof.
  unfold sorted.
  assert (∀ acc, (∀ e, acc = Raise e → e = not_comparable) →
    foldl (λ acc v, s ← acc; insert_sorted v s) acc l = Raise e →
    e = not_comparable) as H.
  { induction l as [|x l IH]; intros acc Hacc; simpl; [by apply Hacc|].
    apply IH. intros e'. destruct acc as [s|e0]; simpl.
    - apply insert_sorted_raise.
    - intros [= <-]. by apply Hacc. }
  by apply H.
Qed.

Lemma listing_nil c df :
  seq_items (present_values c df) = [] → listing c df [].
Proof. intros H. apply present_values_listing. by rewrite H. Qed.

(** X17: whenever a select box gets its options, they are "All" followed by
    the values present in the column (missing values left out), each once
    and in ascending order; the managed box ends with "Unmanaged" besides,
    and gets options only when the frame has a [Managed] column. *)
Theorem select_box_options df opts :
  (dept_options df = Ok opts →
     ∃ s, opts = Str "All" :: s ∧
          if has_column "Department" df then listing "Department" df s else s = [])
  ∧ (managed_options df = Ok opts →
       has_column "Managed" df = true ∧
       ∃ s, opts = Str "All" :: s ++ [Str "Unmanaged"] ∧ listing "Managed" df s)
  ∧ (os_options df = Ok opts →
       ∃ s, opts = Str "All" :: s ∧
            if has_column "Operating System" df
            then listing "Operating System" df s else s = [])
  ∧ (dept_options_w df = Ok opts →
       ∃ s, opts = Str "All" :: s ∧
            if has_column "Department" df then listing "Department" df s else s = []).
Proof.
  split; [|split; [|split]].
  - unfold dept_options. destruct (has_column "Department" df).
    + destruct (seq_items (present_values "Department" df)) as [|v l] eqn:Hitems.
      * simpl. intros [= <-]. exists []. split; [done|]. by apply listing_nil.
      * cbn [length Nat.ltb Nat.leb]. cbn [tolist present_values mbind outcome_bind].
        pose proof (present_values_listing "Department" df) as Hl.
        unfold present_values in Hitems, Hl. cbn [seq_items] in Hitems, Hl.
        destruct (sorted (unique _)) as [s|] eqn:Hs; [|done].
        intros [= <-]. exists s. split; [done|]. by apply Hl.
    + simpl. intros [= <-]. by exists [].
  - unfold managed_options. destruct (has_column "Managed" df); [|done].
    cbn [tolist present_values mbind outcome_bind].
    pose proof (present_values_listing "Managed" df) as Hl.
    unfold present_values in Hl. cbn [seq_items] in Hl.
    destruct (sorted (unique _)) as [s|] eqn:Hs; [|done].
    intros [= <-]. split; [done|]. exists s. split; [done|]. by apply Hl.
  - unfold os_options. destruct (has_column "Operating System" df).
    + cbn [tolist present_values mbind outcome_bind].
      pose proof (present_values_listing "Operating System" df) as Hl.
      unfold present_values in Hl. cbn [seq_items] in Hl.
      destruct (sorted (unique _)) as [s|] eqn:Hs; [|done].
      intros [= <-]. exists s. split; [done|]. by apply Hl.
    + intros [= <-]. by exists [].
  - unfold dept_options_w. destruct (has_column "Department" df).
    + cbn [tolist present_values mbind outcome_bind].
      pose proof (present_values_listing "Department" df) as Hl.
      unfold present_values in Hl. cbn [seq_items] in Hl.
      destruct (sorted (unique _)) as [s|] eqn:Hs; [|done].
      intros [= <-]. exists s. split; [by destruct s|]. by apply Hl.
    + simpl. intros [= <-]. by exists [].
Qed.

(** X18: the managed box raises an [AttributeError] on [[].tolist()] exactly
    when the frame has no [Managed] column; the Inventory page then raises
    whatever the choices are. *)
Theorem managed_options_without_column df :
  (managed_options df = Raise (AttributeError "'list' object has no attribute 'tolist'")
   ↔ has_column "Managed" df = false)
  ∧ (has_column "Managed" df = false → ∀ f, ∃ e, inventory_page f df = Raise e).
Proof.
  split; [|intros H f; by apply inventory_page_without_managed].
  unfold managed_options. destruct (has_column "Managed" df); [|done].
  cbn [tolist present_values mbind outcome_bind]. split; [|done].
  destruct (sorted _) as [s|e] eqn:Hs; [done|]. simpl. intros [= ->].
  by apply sorted_raise_inv in Hs.
Qed.

(** ** Select boxes and the expired table of an enriched frame *)

Section EnrichedWarranty.

Variable parse_datetime : string → option Z.

Local Abbreviation enrich := (enrich parse_datetime).

Lemma column_is_subset c g A B :
  column_is c g A → columns B = columns A → (∀ r, r ∈ rows B → r ∈ rows A) →
  column_is c g B.
Proof.
  intros [Hc Hr] Hcols Hrows. split; [|by intros r ?%Hrows%Hr].
  unfold has_column in *. by rewrite Hcols.
Qed.

(** X19: on an enriched frame of a batch with computer names the department
    boxes of both pages never raise: they offer "All" followed by the
    department codes that occur, each once, in alphabetical order. *)
Theorem dept_options_of_enriched n1 n2 df df' :
  enrich n1 n2 df = Ok df' →
  has_column "Computer Name" df = true →
  ∃ s, dept_options df' = Ok (Str "All" :: s) ∧
       dept_options_w df' = Ok (Str "All" :: s) ∧
       listing "Department" df' s ∧
       ∀ v, v ∈ s → ∃ code, code ∈ department_codes ∧ v = Str code.
Proof.
  intros He Hc.
  assert (has_column "Department" df' = true) as Hd.
  { apply (has_column_enrich _ _ _ _ _ _ He). right. unfold enrich_targets.
    rewrite Hc. apply elem_of_app. left. by_decide. }
  set (l := unique (filter (λ v, notna v) ((λ r, cell r "Department") <$> rows df'))).
  assert (∀ v, v ∈ l → ∃ code, code ∈ department_codes ∧ v = Str code) as Hcodes.
  { intros v Hv. unfold l in Hv. apply (proj1 (proj2 (unique_spec _) v)) in Hv.
    apply list_elem_of_filter in Hv as [Hn (r & -> & Hr)%list_elem_of_fmap].
    destruct (enriched_department _ _ _ _ _ _ He Hc Hr) as [Hnan|(code & ? & Hs)].
    - by rewrite Hnan in Hn.
    - exists code. by rewrite Hs. }
  destruct (sorted_texts l) as [s Hs].
  { apply Forall_forall. intros v (code & _ & ->)%Hcodes. done. }
  destruct (sorted_spec _ _ Hs) as [Hp _].
  exists s. split; [|split; [|split]].
  - unfold dept_options. rewrite Hd.
    change (present_values "Department" df') with (NdArray l).
    cbn [seq_items tolist]. destruct l as [|v l'].
    + simpl. apply Permutation_nil_r in Hp. by rewrite Hp.
    + cbn [length Nat.ltb Nat.leb mbind outcome_bind]. by rewrite Hs.
  - unfold dept_options_w. rewrite Hd.
    change (present_values "Department" df') with (NdArray l).
    cbn [tolist mbind outcome_bind]. rewrite Hs. by destruct s.
  - by apply present_values_listing.
  - intros v Hv. apply Hcodes. by rewrite <-Hp.
Qed.

(** X20: on the Warranty page of a batch with a warranty expiration the
    expired table never raises: it holds, unchanged and in order, exactly the
    devices of the chosen department whose warranty status is "Expired", and
    "No expired devices found." is written exactly when there is none. *)
Theorem expired_table_of_enriched n1 n2 df df' selected_dept_w :
  enrich n1 n2 df = Ok df' →
  has_column "Warranty Expiration" df = true →
  let w_df := warranty_filter selected_dept_w df' in
  let expired_rows :=
    filter (λ r, eq_str (cell r "Warranty Status") "Expired") (rows w_df) in
  expired_table parse_datetime w_df
  = Ok (match expired_rows with
        | [] => None
        | _ => Some (mkDataFrame (columns df') expired_rows)
        end).
Proof.
  intros He Hc w_df expired_rows.
  assert (columns w_df = columns df') as Hcols.
  { unfold w_df, warranty_filter. by case_match. }
  assert (∀ r, r ∈ rows w_df → r ∈ rows df') as Hmem.
  { unfold w_df, warranty_filter. case_match; [|done].
    intros r. unfold select. cbn [rows]. rewrite list_elem_of_filter. tauto. }
  assert (has_column "Warranty Expiration" df' = true) as Hwe.
  { apply (has_column_enrich _ _ _ _ _ _ He). by left. }
  assert (has_column "Warranty Status" w_df = true) as Hws.
  { unfold has_column. rewrite Hcols. apply (has_column_enrich _ _ _ _ _ _ He).
    right. unfold enrich_targets. rewrite Hc, !elem_of_app. right. right. by_decide. }
  unfold expired_table. rewrite Hws. cbn zeta.
  set (expired := select _ w_df).
  assert (columns expired = columns df') as Hecols by done.
  assert (filter (λ c, c ∈ columns expired)
            ["Computer Name"; "Username"; "Department"; "Warranty Expiration";
             "Days Until Expiration"] ≠ []) as Hdisp.
  { intros Hnil.
    assert ("Warranty Expiration" ∈
              filter (λ c, c ∈ columns expired)
                ["Computer Name"; "Username"; "Department"; "Warranty Expiration";
                 "Days Until Expiration"]) as Hin.
    { apply list_elem_of_filter. split; [|by_decide].
      rewrite Hecols. by apply bool_decide_eq_true in Hwe. }
    rewrite Hnil in Hin. by apply elem_of_nil in Hin. }
  rewrite (bool_decide_eq_false_2 _ Hdisp), orb_false_r.
  unfold df_empty, no_rows. change (rows expired) with expired_rows.
  rewrite (bool_decide_eq_false_2 (columns expired = [])), orb_false_r.
  2:{ rewrite Hecols. intros Hnil. apply bool_decide_eq_true in Hwe.
      rewrite Hnil in Hwe. by apply elem_of_nil in Hwe. }
  destruct expired_rows as [|r0 rs] eqn:Hrows; [done|].
  unfold getitem. change (has_column "Warranty Expiration" expired)
    with (has_column "Warranty Expiration" w_df).
  assert (has_column "Warranty Expiration" w_df = true) as ->.
  { unfold has_column. by rewrite Hcols. }
  cbn [mbind outcome_bind]. do 2 f_equal.
  rewrite set_column_fixed.
  - unfold expired, select. cbn [rows columns]. fold expired_rows.
    by rewrite Hcols, <-Hrows.
  - destruct (enrich_inv _ _ _ _ _ He) as (df1 & Hd & ->).
    destruct (enrich_warranty_fixed parse_datetime n2
                (enrich_check_in parse_datetime n1 df1)) as (_ & _ & Hfix & _).
    { rewrite has_column_enrich_check_in_ne by by_decide.
      by rewrite (has_column_enrich_department_ne "Warranty Expiration" _ _
                    ltac:(done) Hd). }
    eapply column_is_subset; [exact Hfix|done|].
    intros r Hr. apply Hmem. unfold expired, select in Hr. cbn [rows] in Hr.
    apply list_elem_of_filter in Hr. tauto.
Qed.

End EnrichedWarranty.

(** ** The search text *)


(** ** When the enrichment raises *)


(** ** The further properties on the example export *)

Lemma department_in_codes_witness :
  cell (row_at 1 enriched_ex) "Department" = NaN
  ∨ ∃ code, code ∈ department_codes ∧ cell (row_at 1 enriched_ex) "Department" = Str code.
Proof.
  apply (department_in_codes iso_datetime now_ex now_ex inventory_ex enriched_ex);
    [reflexivity|reflexivity|by_decide].
Defined.

Lemma check_in_by_elapsed_time_witness :
  ∃ r', rows enriched_ex !! 0 = Some r' ∧
    as_number (cell r' "Days Since Update")
      = Some ((now_ex - 1790294400000000000) / ns_per_day)%Z ∧
    ((now_ex - 1790294400000000000 < 30 * ns_per_day)%Z →
       cell r' "Check-In Status" = Str "Checked in (<30 days)") ∧
    ((30 * ns_per_day ≤ now_ex - 1790294400000000000)%Z →
       cell r' "Check-In Status" = Str "Not checked in (30+ days)").
Proof.
  apply (check_in_by_elapsed_time iso_datetime now_ex now_ex inventory_ex enriched_ex 0
           (row_at 0 inventory_ex)); reflexivity.
Defined.

Lemma warranty_by_remaining_time_witness :
  ∃ r', rows enriched_ex !! 3 = Some r' ∧
    as_number (cell r' "Days Until Expiration")
      = Some ((1793318400000000000 - now_ex) / ns_per_day)%Z ∧
    ((1793318400000000000 < now_ex)%Z → cell r' "Warranty Status" = Str "Expired") ∧
    ((now_ex ≤ 1793318400000000000 < now_ex + 91 * ns_per_day)%Z →
       cell r' "Warranty Status" = Str "Expiring Soon (<90 days)") ∧
    ((now_ex + 91 * ns_per_day ≤ 1793318400000000000)%Z →
       cell r' "Warranty Status" = Str "Valid").
Proof.
  apply (warranty_by_remaining_time iso_datetime now_ex now_ex inventory_ex enriched_ex 3
           (row_at 3 inventory_ex)); reflexivity.
Defined.

Lemma enrich_columns_witness :
  columns enriched_ex
  = columns inventory_ex
    ++ filter (λ c, c ∉ columns inventory_ex) (enrich_targets inventory_ex).
Proof.
  apply (enrich_columns iso_datetime now_ex now_ex inventory_ex enriched_ex).
  reflexivity.
Defined.

Lemma enrich_idempotent_witness :
  enrich iso_datetime now_ex now_ex enriched_ex = Ok enriched_ex.
Proof.
  apply (enrich_idempotent iso_datetime now_ex now_ex inventory_ex enriched_ex).
  reflexivity.
Defined.




Lemma highlight_stale_own_flag_witness :
  highlight_stale mask_ex 6 (row_at 0 enriched_ex) = replicate 6 stale_style
  ∧ highlight_stale mask_ex 6 (row_at 1 enriched_ex) = replicate 6 "".
Proof.
  split.
  - apply (highlight_stale_own_flag enriched_ex mask_ex 6 0 (row_at 0 enriched_ex));
      [by vm_compute|by_decide|reflexivity].
  - apply (highlight_stale_own_flag enriched_ex mask_ex 6 1 (row_at 1 enriched_ex));
      [by vm_compute|by_decide|reflexivity].
Defined.

Lemma check_in_counts_add_up_witness :
  shown_count "Check-In Status" "Checked in (<30 days)" results_ex
  + shown_count "Check-In Status" "Not checked in (30+ days)" results_ex
  = length (rows results_ex).
Proof.
  apply (check_in_counts_add_up iso_datetime now_ex now_ex inventory_ex enriched_ex
           unmanaged_spec results_ex); [reflexivity|reflexivity|by vm_compute].
Defined.

Lemma warranty_counts_add_up_witness :
  let w_df := warranty_filter "PRO" enriched_ex in
  shown_count "Warranty Status" "Expired" w_df
  + shown_count "Warranty Status" "Expiring Soon (<90 days)" w_df
  + shown_count "Warranty Status" "Valid" w_df
  = length (rows w_df).
Proof.
  apply (warranty_counts_add_up iso_datetime now_ex now_ex inventory_ex enriched_ex
           "PRO"); reflexivity.
Defined.

Lemma stale_flags_of_enriched_witness :
  stale_mask results_ex
  = Ok ((λ r, (index_label r, num_ge (as_number (cell r "Days Since Update")) 30))
          <$> rows results_ex)
  ∧ ∀ r, r ∈ rows results_ex →
      let flag := num_ge (as_number (cell r "Days Since Update")) 30 in
      (∀ d, as_number (cell r "Days Since Update") = Some d →
         (flag = true ↔ (30 ≤ d)%Z) ∧
         (flag = true ↔ cell r "Check-In Status" = Str "Not checked in (30+ days)")) ∧
      (as_number (cell r "Days Since Update") = None →
         flag = false ∧ cell r "Check-In Status" = Str "Not checked in (30+ days)").
Proof.
  apply (stale_flags_of_enriched iso_datetime now_ex now_ex inventory_ex enriched_ex
           unmanaged_spec results_ex); [reflexivity|reflexivity|by vm_compute].
Defined.


Lemma dept_options_of_enriched_witness :
  ∃ s, dept_options enriched_ex = Ok (Str "All" :: s) ∧
       dept_options_w enriched_ex = Ok (Str "All" :: s) ∧
       listing "Department" enriched_ex s ∧
       ∀ v, v ∈ s → ∃ code, code ∈ department_codes ∧ v = Str code.
Proof.
  apply (dept_options_of_enriched iso_datetime now_ex now_ex inventory_ex enriched_ex);
    reflexivity.
Defined.

Example dept_options_ex :
  dept_options enriched_ex = Ok [Str "All"; Str "PRO"; Str "SOE"; Str "STU"]
  ∧ managed_options enriched_ex
    = Ok [Str "All"; Str "Managed"; Str "Unmanaged"; Str "Unmanaged"].
Proof. split; by vm_compute. Qed.

Lemma expired_table_of_enriched_witness :
  let w_df := warranty_filter "SOE" enriched_ex in
  let expired_rows :=
    filter (λ r, eq_str (cell r "Warranty Status") "Expired") (rows w_df) in
  expired_table iso_datetime w_df
  = Ok (match expired_rows with
        | [] => None
        | _ => Some (mkDataFrame (columns enriched_ex) expired_rows)
        end).
Proof.
  apply (expired_table_of_enriched iso_datetime now_ex now_ex inventory_ex enriched_ex
           "SOE"); reflexivity.
Defined.

Example expired_table_ex :
  ∃ t, expired_table iso_datetime (warranty_filter "All" enriched_ex) = Ok (Some t)
       ∧ index_label <$> rows t = [3]
  ∧ expired_table iso_datetime (warranty_filter "PRO" enriched_ex) = Ok None.
Proof. eexists. repeat split; by vm_compute. Qed.


Example results_ex_labels : index_label <$> rows results_ex = [1; 2].
Proof. by vm_compute. Qed.

Example stale_mask_ex : stale_mask enriched_ex = Ok mask_ex.
Proof. by vm_compute. Qed.

Lemma upload_keeps_readable_files_witness :
  load [Unreadable "No columns to parse from file"; Parsed names_ex]
  = Some (concat [names_ex]).
Proof.
  apply (proj2 (proj2 (proj2 (proj2
           (upload_keeps_readable_files
              [Unreadable "No columns to parse from file"; Parsed names_ex])))));
    [reflexivity|done].
Defined.

Lemma concat_columns_witness :
  columns inventory_ex `prefix_of` columns (concat [inventory_ex; serials_ex]).
Proof.
  apply (proj2 (proj2 (concat_columns inventory_ex [serials_ex]))). by_decide.
Defined.


Lemma select_box_options_witness :
  (∃ s, [Str "All"; Str "PRO"; Str "SOE"; Str "STU"] = Str "All" :: s ∧
        listing "Department" enriched_ex s)
  ∧ (has_column "Managed" enriched_ex = true ∧
     ∃ s, [Str "All"; Str "Managed"; Str "Unmanaged"; Str "Unmanaged"]
          = Str "All" :: s ++ [Str "Unmanaged"] ∧ listing "Managed" enriched_ex s).
Proof.
  split.
  - apply (proj1 (select_box_options enriched_ex
                    [Str "All"; Str "PRO"; Str "SOE"; Str "STU"])).
    by vm_compute.
  - apply (proj1 (proj2 (select_box_options enriched_ex
                    [Str "All"; Str "Managed"; Str "Unmanaged"; Str "Unmanaged"]))).
    by vm_compute.
Defined.

Lemma managed_options_without_column_witness :
  ∃ e, inventory_page unmanaged_spec names_ex = Raise e.
Proof.
  apply (proj2 (managed_options_without_column names_ex) eq_refl unmanaged_spec).
Defined.

